(** * Practica5: the GraphQL resolver layer over the document store

    A shallow embedding of [resolvers.ts] (the [Query], [Mutation], [User],
    [Post] and [Comment] resolver objects) together with the part of the
    MongoDB driver and of the bcrypt module the resolvers call.

    - A collection is the list of its documents in insertion order; the
      documents hold plain identifier values (BSON).
    - What a resolver gets back from the driver is a JavaScript object: every
      [ObjectId] in it is a freshly allocated object, so it has an address
      besides its 12-byte value.  [Array.prototype.includes] and [!==]
      compare objects by address, the store's filters compare by value.
    - A resolver is a computation over the [World] (the three collections,
      the allocator, the identifier generator and the random source) that
      returns a value or throws. *)

From Stdlib Require Import List String Ascii NArith Arith Bool Lia.
Import ListNotations.

Set Implicit Arguments.

(** ** Identifiers *)

(** The 12-byte value of an ObjectId, as a number below [2^96]. *)
Definition Oid := N.

(** A JavaScript [ObjectId] instance: the heap address of the object and the
    value it wraps. *)
Record ObjectId := mkObjectId { addr : nat; oid : Oid }.

Definition hex_value (c : ascii) : option N :=
  let n := N_of_ascii c in
  if ((48 <=? n) && (n <=? 57))%N then Some (n - 48)%N
  else if ((97 <=? n) && (n <=? 102))%N then Some (n - 87)%N
  else if ((65 <=? n) && (n <=? 70))%N then Some (n - 55)%N
  else None.

Fixpoint parse_hex (s : string) (acc : N) : option N :=
  match s with
  | EmptyString => Some acc
  | String c s' =>
      match hex_value c with
      | Some d => parse_hex s' (16 * acc + d)%N
      | None => None
      end
  end.

(** [new ObjectId(s)] accepts a string of 24 hexadecimal characters. *)
Definition ObjectId_parse (s : string) : option Oid :=
  if Nat.eqb (String.length s) 24 then parse_hex s 0%N else None.

Definition hex_char (d : N) : ascii :=
  ascii_of_N (if (d <? 10)%N then 48 + d else 87 + d)%N.

Fixpoint hex_digits (k : nat) (n : N) : string :=
  match k with
  | O => EmptyString
  | S k' => String.append (hex_digits k' (n / 16)%N)
                          (String (hex_char (n mod 16)%N) EmptyString)
  end.

(** [ObjectId.prototype.toString]: 24 lower-case hexadecimal characters. *)
Definition toHexString (v : Oid) : string := hex_digits 24 v.

(** ** The documents of [types.ts]

    Each model is parameterised by the representation of an identifier:
    [Oid] in the store, [ObjectId] in the JavaScript heap. *)

Record UserModel (I : Type) := mkUser {
  user_id : I;
  user_name : string;
  user_password : string;
  user_email : string;
  user_posts : list I;
  user_comments : list I;
  user_likedPosts : list I
}.

Record PostModel (I : Type) := mkPost {
  post_id : I;
  post_content : option string;
  post_author : I;
  post_comments : list I;
  post_likes : list I
}.

Record CommentModel (I : Type) := mkComment {
  comment_id : I;
  comment_text : option string;
  comment_author : I;
  comment_post : I
}.

(** Serialisation keeps the values and forgets the addresses. *)
Definition bson_user (u : UserModel ObjectId) : UserModel Oid :=
  mkUser (oid (user_id u)) (user_name u) (user_password u) (user_email u)
         (map oid (user_posts u)) (map oid (user_comments u))
         (map oid (user_likedPosts u)).

Definition bson_post (p : PostModel ObjectId) : PostModel Oid :=
  mkPost (oid (post_id p)) (post_content p) (oid (post_author p))
         (map oid (post_comments p)) (map oid (post_likes p)).

Definition bson_comment (c : CommentModel ObjectId) : CommentModel Oid :=
  mkComment (oid (comment_id c)) (comment_text c) (oid (comment_author c))
            (oid (comment_post c)).

(** Deserialisation allocates one object per identifier, from address [h]
    upwards. *)
Fixpoint load_ids (h : nat) (l : list Oid) : list ObjectId :=
  match l with
  | [] => []
  | v :: l' => mkObjectId h v :: load_ids (S h) l'
  end.

Definition load_user (h : nat) (d : UserModel Oid) : UserModel ObjectId :=
  let h1 := S h in
  let h2 := h1 + List.length (user_posts d) in
  let h3 := h2 + List.length (user_comments d) in
  mkUser (mkObjectId h (user_id d)) (user_name d) (user_password d)
         (user_email d) (load_ids h1 (user_posts d))
         (load_ids h2 (user_comments d)) (load_ids h3 (user_likedPosts d)).

Definition user_cells (d : UserModel Oid) : nat :=
  S (List.length (user_posts d) + List.length (user_comments d)
     + List.length (user_likedPosts d)).

Definition load_post (h : nat) (d : PostModel Oid) : PostModel ObjectId :=
  let h2 := S (S h) in
  let h3 := h2 + List.length (post_comments d) in
  mkPost (mkObjectId h (post_id d)) (post_content d)
         (mkObjectId (S h) (post_author d))
         (load_ids h2 (post_comments d)) (load_ids h3 (post_likes d)).

Definition post_cells (d : PostModel Oid) : nat :=
  S (S (List.length (post_comments d) + List.length (post_likes d))).

Definition load_comment (h : nat) (d : CommentModel Oid)
  : CommentModel ObjectId :=
  mkComment (mkObjectId h (comment_id d)) (comment_text d)
            (mkObjectId (S h) (comment_author d))
            (mkObjectId (S (S h)) (comment_post d)).

Definition comment_cells (d : CommentModel Oid) : nat := 3.

(** ** The world a resolver runs in *)

(** The [Context] of [resolvers.ts]: the three collections. *)
Record Context := mkContext {
  UserCollection : list (UserModel Oid);
  PostCollection : list (PostModel Oid);
  CommentCollection : list (CommentModel Oid)
}.

Record World := mkWorld {
  ctx : Context;
  heap_next : nat;     (* next free address of the JavaScript heap *)
  oid_next : Oid;      (* next identifier the driver generates *)
  rng_next : nat       (* draws taken from the random source *)
}.

Inductive Error :=
| GraphQLError (message : string)
| BSONError (message : string).

Inductive Outcome (A : Type) :=
| Return (a : A)
| Throw (e : Error).
Arguments Throw {A} e.

Definition M (A : Type) : Type := World -> Outcome A * World.

Definition ret {A} (a : A) : M A := fun w => (Return a, w).

Definition throw {A} (e : Error) : M A := fun w => (Throw e, w).

Definition bind {A B} (m : M A) (k : A -> M B) : M B :=
  fun w =>
    match m w with
    | (Return a, w') => k a w'
    | (Throw e, w') => (Throw e, w')
    end.

Notation "x <- m ;; k" := (bind m (fun x => k))
  (at level 61, m at next level, right associativity).
Notation "m ;;; k" := (bind m (fun _ => k))
  (at level 61, right associativity).

(** [new ObjectId(s)]: a fresh object, or a [BSONError] on a malformed
    string. *)
Definition new_ObjectId (s : string) : M ObjectId :=
  fun w =>
    match ObjectId_parse s with
    | None =>
        (Throw (BSONError
           "input must be a 24 character hex string, 12 byte Uint8Array, or an integer"),
         w)
    | Some v =>
        (Return (mkObjectId (heap_next w) v),
         mkWorld (ctx w) (S (heap_next w)) (oid_next w) (rng_next w))
    end.

(** Strict inequality [a !== b] of two objects. *)
Definition strict_neq (a b : ObjectId) : bool := negb (Nat.eqb (addr a) (addr b)).

(** [l.includes(x)] on an array of objects (SameValueZero is identity). *)
Definition includes (l : list ObjectId) (x : ObjectId) : bool :=
  existsb (fun y => Nat.eqb (addr y) (addr x)) l.

(** Truthiness of a string. *)
Definition truthy (s : string) : bool :=
  match s with EmptyString => false | _ => true end.

(** ** The driver's collection operations *)

Section Driver.
Variables D J : Type.

Fixpoint update_first (q : D -> bool) (f : D -> D) (l : list D) : list D :=
    match l with
    | [] => []
    | d :: l' => if q d then f d :: l' else d :: update_first q f l'
    end.

Fixpoint delete_first (q : D -> bool) (l : list D) : list D :=
    match l with
    | [] => []
    | d :: l' => if q d then l' else d :: delete_first q l'
    end.

  (** A collection handle: where its documents live in the context and how
      one of them is deserialised. *)
Record Collection := mkCollection {
    coll_docs : Context -> list D;
    coll_put : list D -> Context -> Context;
    coll_load : nat -> D -> J;
    coll_cells : D -> nat
  }.

Variable C : Collection.

Definition put_docs (l : list D) (h : nat) (w : World) : World :=
    mkWorld (coll_put C l (ctx w)) h (oid_next w) (rng_next w).

Definition set_heap (h : nat) (w : World) : World :=
    mkWorld (ctx w) h (oid_next w) (rng_next w).

Fixpoint load_all (h : nat) (l : list D) : list J :=
    match l with
    | [] => []
    | d :: l' => coll_load C h d :: load_all (h + coll_cells C d) l'
    end.

Definition cells_all (l : list D) : nat :=
    fold_right (fun d n => coll_cells C d + n) 0 l.

Definition findOne (q : D -> bool) : M (option J) :=
    fun w =>
      match List.find q (coll_docs C (ctx w)) with
      | None => (Return None, w)
      | Some d =>
          (Return (Some (coll_load C (heap_next w) d)),
           set_heap (heap_next w + coll_cells C d) w)
      end.

Definition find (q : D -> bool) : M (list J) :=
    fun w =>
      let l := filter q (coll_docs C (ctx w)) in
      (Return (load_all (heap_next w) l),
       set_heap (heap_next w + cells_all l) w).

  (** [insertOne]: the driver generates the [_id], appends the document and
      reports the identifier as a new object. *)
Definition insertOne (doc : Oid -> D) : M ObjectId :=
    fun w =>
      let i := oid_next w in
      (Return (mkObjectId (heap_next w) i),
       mkWorld (coll_put C (coll_docs C (ctx w) ++ [doc i]) (ctx w))
               (S (heap_next w)) (N.succ i) (rng_next w)).

  (** [updateOne]: the first document matching the filter is updated. *)
Definition updateOne (q : D -> bool) (f : D -> D) : M unit :=
    fun w =>
      (Return tt,
       put_docs (update_first q f (coll_docs C (ctx w))) (heap_next w) w).

  (** [findOneAndUpdate] with the driver's defaults: the document as it was
      before the update, or [null]. *)
Definition findOneAndUpdate (q : D -> bool) (f : D -> D) : M (option J) :=
    fun w =>
      match List.find q (coll_docs C (ctx w)) with
      | None => (Return None, w)
      | Some d =>
          (Return (Some (coll_load C (heap_next w) d)),
           put_docs (update_first q f (coll_docs C (ctx w)))
                    (heap_next w + coll_cells C d) w)
      end.

  (** [deleteOne]: the first matching document is removed; the result is
      [deletedCount]. *)
Definition deleteOne (q : D -> bool) : M N :=
    fun w =>
      match List.find q (coll_docs C (ctx w)) with
      | None => (Return 0%N, w)
      | Some _ =>
          (Return 1%N,
           put_docs (delete_first q (coll_docs C (ctx w))) (heap_next w) w)
      end.
End Driver.

Definition Users : Collection (UserModel Oid) (UserModel ObjectId) :=
  mkCollection UserCollection
    (fun l c => mkContext l (PostCollection c) (CommentCollection c))
    load_user user_cells.

Definition Posts : Collection (PostModel Oid) (PostModel ObjectId) :=
  mkCollection PostCollection
    (fun l c => mkContext (UserCollection c) l (CommentCollection c))
    load_post post_cells.

Definition Comments : Collection (CommentModel Oid) (CommentModel ObjectId) :=
  mkCollection CommentCollection
    (fun l c => mkContext (UserCollection c) (PostCollection c) l)
    load_comment comment_cells.

(** *** Filters and update operators *)

(** The filter [{ _id: x }] (or [{ author: x }], [{ post: x }]) for a value
    [v] of [x]: equality of values. *)
Definition id_is {D} (field : D -> Oid) (v : Oid) : D -> bool :=
  fun d => N.eqb (field d) v.

Definition eq_id {D} (field : D -> Oid) (x : ObjectId) : D -> bool :=
  id_is field (oid x).

(** The document the filter selects. *)
Definition find_id {D} (field : D -> Oid) (v : Oid) (l : list D) : option D :=
  List.find (id_is field v) l.

(** Whether a lookup found a document. *)
Definition found {D : Type} (o : option D) : bool :=
  match o with Some _ => true | None => false end.

(** [{ email }] *)
Definition eq_email (email : string) : UserModel Oid -> bool :=
  fun d => String.eqb (user_email d) email.

(** [{ likes: x }]: the array field holds the value. *)
Definition has_id {D} (field : D -> list Oid) (x : ObjectId) : D -> bool :=
  fun d => existsb (N.eqb (oid x)) (field d).

(** [{ _id: { $in: xs } }] *)
Definition in_ids {D} (field : D -> Oid) (xs : list ObjectId) : D -> bool :=
  fun d => existsb (fun x => N.eqb (field d) (oid x)) xs.

(** [$pull]: every occurrence of the value leaves the array. *)
Definition pull (v : Oid) (l : list Oid) : list Oid :=
  filter (fun x => negb (N.eqb x v)) l.

Definition set_user (name email password : string) (d : UserModel Oid)
  : UserModel Oid :=
  mkUser (user_id d) name password email
         (user_posts d) (user_comments d) (user_likedPosts d).

Definition set_content (content : option string) (d : PostModel Oid)
  : PostModel Oid :=
  mkPost (post_id d) content (post_author d) (post_comments d) (post_likes d).

Definition set_likes (f : list Oid -> list Oid) (d : PostModel Oid)
  : PostModel Oid :=
  mkPost (post_id d) (post_content d) (post_author d) (post_comments d)
         (f (post_likes d)).

Definition set_comments (f : list Oid -> list Oid) (d : PostModel Oid)
  : PostModel Oid :=
  mkPost (post_id d) (post_content d) (post_author d) (f (post_comments d))
         (post_likes d).

Definition set_text (text : option string) (d : CommentModel Oid)
  : CommentModel Oid :=
  mkComment (comment_id d) text (comment_author d) (comment_post d).

(** ** The resolvers of [resolvers.ts] *)

Definition msg_email_registered : string := "El email ya está registrado".
Definition msg_email_other_user : string :=
  "El email ya está registrado por otro usuario".
Definition msg_no_author : string := "El autor no existe".
Definition msg_no_publication : string := "La publicación no existe".
Definition msg_already_liked : string :=
  "El usuario ya ha dado like a esta publicación".
Definition msg_not_liked : string :=
  "El usuario no ha dado like a esta publicación".
Definition msg_no_post : string := "El post no existe".
Definition msg_no_comment : string := "El comentario no existe".

Module Query.
Definition users : M (list (UserModel ObjectId)) :=
    find Users (fun _ => true).

Definition user (id : string) : M (option (UserModel ObjectId)) :=
    userId <- new_ObjectId id ;;
    findOne Users (eq_id (@user_id Oid) userId).

Definition posts : M (list (PostModel ObjectId)) :=
    find Posts (fun _ => true).

Definition post (id : string) : M (option (PostModel ObjectId)) :=
    postId <- new_ObjectId id ;;
    findOne Posts (eq_id (@post_id Oid) postId).

Definition comments : M (list (CommentModel ObjectId)) :=
    find Comments (fun _ => true).

Definition comment (id : string) : M (option (CommentModel ObjectId)) :=
    commentId <- new_ObjectId id ;;
    findOne Comments (eq_id (@comment_id Oid) commentId).
End Query.

(** The bcrypt module.  Its random source and its digest are parameters; a
    salt is the version and cost prefix followed by the encoded random bytes,
    and a hash is the salt followed by the encoded digest. *)
Section Bcrypt.
Variable bcrypt_random : nat -> string.
Variable bcrypt_digest : string -> string -> string.

Definition two_digits (n : nat) : string :=
    String (ascii_of_nat (48 + n / 10))
      (String (ascii_of_nat (48 + n mod 10)) EmptyString).

Definition salt_of (log_rounds : nat) (draw : nat) : string :=
    String.append "$2a$"
      (String.append (two_digits log_rounds)
         (String.append "$" (bcrypt_random draw))).

Definition genSalt (log_rounds : nat) : M string :=
    fun w =>
      (Return (salt_of log_rounds (rng_next w)),
       mkWorld (ctx w) (heap_next w) (oid_next w) (S (rng_next w))).

Definition hashpw (plaintext salt : string) : string :=
    String.append salt (bcrypt_digest plaintext salt).

Definition hash (plaintext salt : string) : M string :=
    ret (hashpw plaintext salt).
End Bcrypt.

Module Mutation.
Section WithBcrypt.
Variable bcrypt_random : nat -> string.
Variable bcrypt_digest : string -> string -> string.

Definition createUser (name email password : string)
    : M (UserModel ObjectId) :=
    existingUser <- findOne Users (eq_email email) ;;
    match existingUser with
    | Some _ => throw (GraphQLError msg_email_registered)
    | None =>
        salt <- genSalt bcrypt_random 8 ;;
        hashedPassword <- hash bcrypt_digest password salt ;;
        insertedId <- insertOne Users
          (fun i => mkUser i name hashedPassword email [] [] []) ;;
        ret (mkUser insertedId name hashedPassword email [] [] [])
    end.

Definition updateUser (id name email password : string)
    : M (option (UserModel ObjectId)) :=
    userId <- new_ObjectId id ;;
    (if truthy email then
       existeEmail <- findOne Users (eq_email email) ;;
       match existeEmail with
       | Some e =>
           if strict_neq (user_id e) userId
           then throw (GraphQLError msg_email_other_user)
           else ret tt
       | None => ret tt
       end
     else ret tt) ;;;
    salt <- genSalt bcrypt_random 8 ;;
    hashed <- hash bcrypt_digest password salt ;;
    findOneAndUpdate Users (eq_id (@user_id Oid) userId)
      (set_user name email hashed).
End WithBcrypt.

Definition deleteUser (id : string) : M bool :=
    userId <- new_ObjectId id ;;
    deletedCount <- deleteOne Users (eq_id (@user_id Oid) userId) ;;
    ret (N.eqb deletedCount 1).

Definition createPost (content authorId : string) : M (PostModel ObjectId) :=
    a <- new_ObjectId authorId ;;
    author <- findOne Users (eq_id (@user_id Oid) a) ;;
    match author with
    | None => throw (GraphQLError msg_no_author)
    | Some _ =>
        a1 <- new_ObjectId authorId ;;
        insertedId <- insertOne Posts
          (fun i => mkPost i (Some content) (oid a1) [] []) ;;
        a2 <- new_ObjectId authorId ;;
        ret (mkPost insertedId (Some content) a2 [] [])
    end.

Definition updatePost (id : string) (content : option string)
    : M (option (PostModel ObjectId)) :=
    postId <- new_ObjectId id ;;
    findOneAndUpdate Posts (eq_id (@post_id Oid) postId) (set_content content).

Definition deletePost (id : string) : M bool :=
    postId <- new_ObjectId id ;;
    deletedCount <- deleteOne Posts (eq_id (@post_id Oid) postId) ;;
    ret (N.eqb deletedCount 1).

Definition addLikeToPost (postId userId : string)
    : M (option (PostModel ObjectId)) :=
    p <- new_ObjectId postId ;;
    post <- findOne Posts (eq_id (@post_id Oid) p) ;;
    match post with
    | None => throw (GraphQLError msg_no_publication)
    | Some post =>
        u <- new_ObjectId userId ;;
        if includes (post_likes post) u
        then throw (GraphQLError msg_already_liked)
        else
          p1 <- new_ObjectId postId ;;
          u1 <- new_ObjectId userId ;;
          updateOne Posts (eq_id (@post_id Oid) p1)
            (set_likes (fun l => l ++ [oid u1])) ;;;
          p2 <- new_ObjectId postId ;;
          findOne Posts (eq_id (@post_id Oid) p2)
    end.

Definition removeLikeFromPost (postId userId : string)
    : M (option (PostModel ObjectId)) :=
    p <- new_ObjectId postId ;;
    post <- findOne Posts (eq_id (@post_id Oid) p) ;;
    match post with
    | None => throw (GraphQLError msg_no_publication)
    | Some post =>
        u <- new_ObjectId userId ;;
        if negb (includes (post_likes post) u)
        then throw (GraphQLError msg_not_liked)
        else
          p1 <- new_ObjectId postId ;;
          u1 <- new_ObjectId userId ;;
          updateOne Posts (eq_id (@post_id Oid) p1)
            (set_likes (pull (oid u1))) ;;;
          p2 <- new_ObjectId postId ;;
          findOne Posts (eq_id (@post_id Oid) p2)
    end.

Definition createComment (text authorId postId : string)
    : M (CommentModel ObjectId) :=
    a <- new_ObjectId authorId ;;
    author <- findOne Users (eq_id (@user_id Oid) a) ;;
    match author with
    | None => throw (GraphQLError msg_no_author)
    | Some _ =>
        p <- new_ObjectId postId ;;
        post <- findOne Posts (eq_id (@post_id Oid) p) ;;
        match post with
        | None => throw (GraphQLError msg_no_post)
        | Some _ =>
            a1 <- new_ObjectId authorId ;;
            p1 <- new_ObjectId postId ;;
            insertedId <- insertOne Comments
              (fun i => mkComment i (Some text) (oid a1) (oid p1)) ;;
            p2 <- new_ObjectId postId ;;
            updateOne Posts (eq_id (@post_id Oid) p2)
              (set_comments (fun l => l ++ [oid insertedId])) ;;;
            a3 <- new_ObjectId authorId ;;
            p3 <- new_ObjectId postId ;;
            ret (mkComment insertedId (Some text) a3 p3)
        end
    end.

Definition updateComment (id : string) (text : option string)
    : M (option (CommentModel ObjectId)) :=
    commentId <- new_ObjectId id ;;
    findOneAndUpdate Comments (eq_id (@comment_id Oid) commentId)
      (set_text text).

  (** The tail of [deleteComment], from the test of [deletedCount] on. *)
Definition deleteComment_cascade (comment : CommentModel ObjectId)
      (commentId : ObjectId) (deletedCount : N) : M bool :=
    if N.eqb deletedCount 1 then
      updateOne Posts (eq_id (@post_id Oid) (comment_post comment))
        (set_comments (pull (oid commentId))) ;;;
      ret true
    else ret false.

Definition deleteComment (id : string) : M bool :=
    commentId <- new_ObjectId id ;;
    comment <- findOne Comments (eq_id (@comment_id Oid) commentId) ;;
    match comment with
    | None => throw (GraphQLError msg_no_comment)
    | Some comment =>
        deletedCount <-
          deleteOne Comments (eq_id (@comment_id Oid) commentId) ;;
        deleteComment_cascade comment commentId deletedCount
    end.
End Mutation.

(** Field resolvers. *)
Module User.
Definition id (parent : UserModel ObjectId) : string :=
    toHexString (oid (user_id parent)).

Definition posts (parent : UserModel ObjectId) : M (list (PostModel ObjectId)) :=
    find Posts (eq_id (@post_author Oid) (user_id parent)).

Definition comments (parent : UserModel ObjectId)
    : M (list (CommentModel ObjectId)) :=
    find Comments (eq_id (@comment_author Oid) (user_id parent)).

Definition likedPosts (parent : UserModel ObjectId)
    : M (list (PostModel ObjectId)) :=
    find Posts (has_id (@post_likes Oid) (user_id parent)).
End User.

Module Post.
Definition id (parent : PostModel ObjectId) : string :=
    toHexString (oid (post_id parent)).

Definition author (parent : PostModel ObjectId)
    : M (option (UserModel ObjectId)) :=
    findOne Users (eq_id (@user_id Oid) (post_author parent)).

Definition comments (parent : PostModel ObjectId)
    : M (list (CommentModel ObjectId)) :=
    find Comments (eq_id (@comment_post Oid) (post_id parent)).

Definition likes (parent : PostModel ObjectId)
    : M (list (UserModel ObjectId)) :=
    find Users (in_ids (@user_id Oid) (post_likes parent)).
End Post.

Module Comment.
Definition id (parent : CommentModel ObjectId) : string :=
    toHexString (oid (comment_id parent)).

Definition author (parent : CommentModel ObjectId)
    : M (option (UserModel ObjectId)) :=
    findOne Users (eq_id (@user_id Oid) (comment_author parent)).

Definition post (parent : CommentModel ObjectId)
    : M (option (PostModel ObjectId)) :=
    findOne Posts (eq_id (@post_id Oid) (comment_post parent)).
End Comment.

(** ** Calls, invariants and the scenario of the specification *)

(** One call of a mutation resolver with its arguments. *)
Inductive Call :=
| CreateUser (name email password : string)
| UpdateUser (id name email password : string)
| DeleteUser (id : string)
| CreatePost (content authorId : string)
| UpdatePost (id : string) (content : option string)
| DeletePost (id : string)
| AddLikeToPost (postId userId : string)
| RemoveLikeFromPost (postId userId : string)
| CreateComment (text authorId postId : string)
| UpdateComment (id : string) (text : option string)
| DeleteComment (id : string).

(** The world a call leaves behind, whether it returned or threw. *)
Definition exec (bcrypt_random : nat -> string)
    (bcrypt_digest : string -> string -> string) (c : Call) (w : World)
  : World :=
  match c with
  | CreateUser n e p =>
      snd (Mutation.createUser bcrypt_random bcrypt_digest n e p w)
  | UpdateUser i n e p =>
      snd (Mutation.updateUser bcrypt_random bcrypt_digest i n e p w)
  | DeleteUser i => snd (Mutation.deleteUser i w)
  | CreatePost c a => snd (Mutation.createPost c a w)
  | UpdatePost i c => snd (Mutation.updatePost i c w)
  | DeletePost i => snd (Mutation.deletePost i w)
  | AddLikeToPost p u => snd (Mutation.addLikeToPost p u w)
  | RemoveLikeFromPost p u => snd (Mutation.removeLikeFromPost p u w)
  | CreateComment t a p => snd (Mutation.createComment t a p w)
  | UpdateComment i t => snd (Mutation.updateComment i t w)
  | DeleteComment i => snd (Mutation.deleteComment i w)
  end.

(** Which calls are mutations of the User collection. *)
Definition on_users (c : Call) : bool :=
  match c with
  | CreateUser _ _ _ | UpdateUser _ _ _ _ | DeleteUser _ => true
  | _ => false
  end.

(** The three reference arrays of a User row are as [createUser] wrote
    them. *)
Definition refs_empty (d : UserModel Oid) : Prop :=
  user_posts d = [] /\ user_comments d = [] /\ user_likedPosts d = [].

Definition same_refs (d d' : UserModel Oid) : Prop :=
  user_posts d = user_posts d' /\ user_comments d = user_comments d'
  /\ user_likedPosts d = user_likedPosts d'.

(** Every identifier in the store was generated before [oid_next], and the
    generator has not run out of 12-byte values. *)
Definition ids_generated (w : World) : Prop :=
  Forall (fun d => (user_id d < oid_next w)%N) (UserCollection (ctx w))
  /\ Forall (fun d => (post_id d < oid_next w)%N) (PostCollection (ctx w))
  /\ Forall (fun d => (comment_id d < oid_next w)%N)
            (CommentCollection (ctx w))
  /\ (oid_next w < 2 ^ 96)%N.

(** A collection is in order below [n] when its identifiers are distinct and
    were all generated before [n]. *)
Definition coll_ok {D : Type} (key : D -> Oid) (n : Oid) (l : list D) : Prop :=
  Forall (fun d => (key d < n)%N) l /\ NoDup (map key l).

(** The ways a call changes a collection while the generator moves from
    [n] to [n']. *)
Inductive coll_step {D : Type} (key : D -> Oid) (n n' : Oid) (l : list D)
  : list D -> Prop :=
| step_same : coll_step key n n' l l
| step_insert (d : D) :
    key d = n -> (n < n')%N -> coll_step key n n' l (l ++ [d])
| step_update (q : D -> bool) (f : D -> D) :
    (forall d, key (f d) = key d) -> coll_step key n n' l (update_first q f l)
| step_delete (q : D -> bool) : coll_step key n n' l (delete_first q l).

Definition store_ok (w : World) : Prop :=
  coll_ok (@user_id Oid) (oid_next w) (UserCollection (ctx w))
  /\ coll_ok (@post_id Oid) (oid_next w) (PostCollection (ctx w))
  /\ coll_ok (@comment_id Oid) (oid_next w) (CommentCollection (ctx w)).

(** The worlds the resolvers build from an empty store. *)
Inductive reachable (bcrypt_random : nat -> string)
    (bcrypt_digest : string -> string -> string) : World -> Prop :=
| reach_empty (h : nat) (n : Oid) (r : nat) :
    reachable bcrypt_random bcrypt_digest
      (mkWorld (mkContext [] [] []) h n r)
| reach_call (c : Call) (w : World) :
    reachable bcrypt_random bcrypt_digest w ->
    reachable bcrypt_random bcrypt_digest
      (exec bcrypt_random bcrypt_digest c w).

(** No email is held by a row of the User collection. *)
Definition email_free (email : string) (w : World) : Prop :=
  forall d, In d (UserCollection (ctx w)) -> user_email d <> email.

Module Scenario.
Definition demo_random : nat -> string := fun _ => "abcdefghijklmnopqrstuv"%string.
Definition demo_digest : string -> string -> string :=
  fun _ _ => "0123456789012345678901234567890"%string.

Definition ana_id : Oid := 1%N.
Definition hi_id : Oid := 2%N.
Definition nice_id : Oid := 3%N.

Definition ana : UserModel Oid :=
  mkUser ana_id "Ana"%string
         (hashpw demo_digest "secret"%string (salt_of demo_random 8 0))
         "ana@x.com"%string [] [] [].

Definition hi (likes : list Oid) (comments : list Oid) : PostModel Oid :=
  mkPost hi_id (Some "hi"%string) ana_id comments likes.

Definition nice : CommentModel Oid :=
  mkComment nice_id (Some "nice"%string) ana_id hi_id.

(** An empty store. *)
Definition w_empty : World := mkWorld (mkContext [] [] []) 0 1%N 0.

(** Ana and her post, nobody has liked it. *)
Definition w_post : World :=
  mkWorld (mkContext [ana] [hi [] []] []) 0 3%N 1.

(** Ana has liked her post. *)
Definition w_liked : World :=
  mkWorld (mkContext [ana] [hi [ana_id] []] []) 0 3%N 1.

(** Ana has commented on her post. *)
Definition w_commented : World :=
  mkWorld (mkContext [ana] [hi [] [nice_id]] [nice]) 0 4%N 1.
End Scenario.

(** ** Further vocabulary for the properties *)

(** A run that stopped on a malformed identifier, in the world [w]. *)
Definition throws_bson {A : Type} (r : Outcome A * World) (w : World) : Prop :=
  exists message, r = (Throw (BSONError message), w).

(** A run that stopped on a resolver error and left the store as [w] has
    it. *)
Definition throws_keeping {A : Type} (r : Outcome A * World) (message : string)
    (w : World) : Prop :=
  fst r = Throw (GraphQLError message) /\ ctx (snd r) = ctx w.

(** The emails that count as provided: the non-empty ones, in store
    order. *)
Definition provided_emails (l : list (UserModel Oid)) : list string :=
  filter truthy (map (@user_email Oid) l).

(** [updatePost] may change the content of the row with identifier [i] and
    nothing else of any row. *)
Definition content_only (i : Oid) (content : option string)
    (d d' : PostModel Oid) : Prop :=
  post_id d' = post_id d /\ post_author d' = post_author d
  /\ post_comments d' = post_comments d /\ post_likes d' = post_likes d
  /\ (post_content d' = post_content d
      \/ (post_id d = i /\ post_content d' = content)).

(** [updateComment] may change the text of the row with identifier [i] and
    nothing else of any row. *)
Definition text_only (i : Oid) (text : option string)
    (d d' : CommentModel Oid) : Prop :=
  comment_id d' = comment_id d /\ comment_author d' = comment_author d
  /\ comment_post d' = comment_post d
  /\ (comment_text d' = comment_text d
      \/ (comment_id d = i /\ comment_text d' = text)).

(** [updateUser] may change the name, email and password of the row with
    identifier [i] and nothing else of any row. *)
Definition profile_only (i : Oid) (name email : string)
    (d d' : UserModel Oid) : Prop :=
  user_id d' = user_id d /\ same_refs d d'
  /\ (d' = d
      \/ (user_id d = i /\ user_name d' = name /\ user_email d' = email)).

(** A computation that always returns and leaves the store, the generator
    and the random source as they were. *)
Definition reads_only {A : Type} (m : M A) : Prop :=
  forall w,
    (exists r, fst (m w) = Return r)
    /\ ctx (snd (m w)) = ctx w
    /\ oid_next (snd (m w)) = oid_next w
    /\ rng_next (snd (m w)) = rng_next w.

(** The same, for a computation that may throw. *)
Definition keeps_store {A : Type} (m : M A) : Prop :=
  forall w,
    ctx (snd (m w)) = ctx w
    /\ oid_next (snd (m w)) = oid_next w
    /\ rng_next (snd (m w)) = rng_next w.

Module Examples.
Definition bea_id : Oid := 5%N.

Definition bea : UserModel Oid :=
  mkUser bea_id "Bea"%string "x"%string "bea@x.com"%string [] [] [].

(** Ana and Bea; Ana's post is liked by Bea and by an identifier no user
    has; Ana has commented on it. *)
Definition w_two : World :=
  mkWorld (mkContext [Scenario.ana; bea]
             [Scenario.hi [bea_id; 9%N] [Scenario.nice_id]]
             [Scenario.nice]) 0 6%N 1.
End Examples.

(** * Properties *)

Unset Implicit Arguments.

(** ** Identifiers and their string form *)

Lemma hex_value_hex_char (d : N) :
  (d < 16)%N -> hex_value (hex_char d) = Some d.
Proof.
  intros Hd.
  assert (Hn : forall n : nat, n < 16 ->
            hex_value (hex_char (N.of_nat n)) = Some (N.of_nat n)).
  { intros n Hlt. do 16 (destruct n as [|n]; [reflexivity|]). lia. }
  rewrite <- (N2Nat.id d). apply Hn. lia.
Qed.

Lemma parse_hex_app (s1 s2 : string) (acc : N) :
  parse_hex (String.append s1 s2) acc =
  match parse_hex s1 acc with
  | Some a => parse_hex s2 a
  | None => None
  end.
Proof.
  revert acc. induction s1 as [|c s1 IH]; intros acc; simpl.
  - reflexivity.
  - destruct (hex_value c); [apply IH | reflexivity].
Qed.

Lemma parse_hex_digits (k : nat) (n acc : N) :
  parse_hex (hex_digits k n) acc
  = Some (acc * 16 ^ N.of_nat k + n mod 16 ^ N.of_nat k)%N.
Proof.
  revert n acc. induction k as [|k IH]; intros n acc.
  - simpl. rewrite N.mod_1_r. f_equal. lia.
  - cbn [hex_digits]. rewrite parse_hex_app, IH. cbn [parse_hex].
    rewrite hex_value_hex_char by (apply N.mod_lt; lia).
    f_equal. rewrite Nat2N.inj_succ, N.pow_succ_r'.
    rewrite (N.Div0.mod_mul_r n 16). lia.
Qed.

Lemma length_string_app (s1 s2 : string) :
  String.length (String.append s1 s2) = String.length s1 + String.length s2.
Proof. induction s1 as [|c s1 IH]; simpl; [reflexivity | now rewrite IH]. Qed.

Lemma length_hex_digits (k : nat) (n : N) : String.length (hex_digits k n) = k.
Proof.
  revert n. induction k as [|k IH]; intros n; simpl; [reflexivity|].
  rewrite length_string_app, IH. simpl. lia.
Qed.

(** Parsing the string form of an identifier gives the identifier back. *)
Lemma ObjectId_parse_toHexString (v : Oid) :
  (v < 2 ^ 96)%N -> ObjectId_parse (toHexString v) = Some v.
Proof.
  intros Hv. unfold ObjectId_parse, toHexString.
  rewrite length_hex_digits, Nat.eqb_refl, parse_hex_digits.
  f_equal. change (N.of_nat 24) with 24%N.
  rewrite N.mod_small by (change (16 ^ 24)%N with (2 ^ 96)%N; exact Hv).
  lia.
Qed.

(** ** Objects and their addresses *)

Lemma map_oid_load_ids (h : nat) (l : list Oid) : map oid (load_ids h l) = l.
Proof.
  revert h. induction l as [|v l IH]; intros h; simpl;
    [reflexivity | now rewrite IH].
Qed.

Lemma bson_load_user (h : nat) (d : UserModel Oid) : bson_user (load_user h d) = d.
Proof.
  destruct d. unfold bson_user, load_user. simpl.
  now rewrite !map_oid_load_ids.
Qed.

Lemma bson_load_post (h : nat) (d : PostModel Oid) : bson_post (load_post h d) = d.
Proof.
  destruct d. unfold bson_post, load_post. simpl.
  now rewrite !map_oid_load_ids.
Qed.

Lemma bson_load_comment (h : nat) (d : CommentModel Oid) :
  bson_comment (load_comment h d) = d.
Proof. destruct d. reflexivity. Qed.

(** An object allocated after an array was deserialised is none of its
    elements. *)
Lemma includes_load_ids (h : nat) (l : list Oid) (x : ObjectId) :
  h + List.length l <= addr x -> includes (load_ids h l) x = false.
Proof.
  revert h. induction l as [|v l IH]; intros h Hx; simpl in *.
  - reflexivity.
  - rewrite IH by lia. rewrite orb_false_r. apply Nat.eqb_neq. lia.
Qed.

Lemma strict_neq_later (a b : ObjectId) : addr b < addr a -> strict_neq a b = true.
Proof.
  intros H. unfold strict_neq. apply negb_true_iff, Nat.eqb_neq. lia.
Qed.

(** ** First-match operations on a collection *)

Section FirstMatch.
Variable D : Type.
Variable q : D -> bool.

Lemma find_app_one (l : list D) (d : D) :
  List.find q (l ++ [d]) =
  match List.find q l with
  | Some x => Some x
  | None => if q d then Some d else None
  end.
Proof.
  induction l as [|a l IH]; simpl; [reflexivity|].
  destruct (q a); [reflexivity | exact IH].
Qed.

Lemma delete_first_none (l : list D) :
  List.find q l = None -> delete_first q l = l.
Proof.
  induction l as [|a l IH]; simpl; [reflexivity|].
  destruct (q a); [discriminate|]. intros H. now rewrite IH.
Qed.

Lemma length_delete_first (l : list D) (d : D) :
  List.find q l = Some d ->
  S (List.length (delete_first q l)) = List.length l.
Proof.
  induction l as [|a l IH]; simpl; [discriminate|].
  destruct (q a); [reflexivity|]. intros H. simpl. now rewrite IH.
Qed.

(** When the update keeps a document inside the filter, a later lookup
    with the same filter finds the updated document. *)
Lemma find_update_first (f : D -> D) (l : list D) :
  (forall d, q d = true -> q (f d) = true) ->
  List.find q (update_first q f l) = option_map f (List.find q l).
Proof.
  intros Hf. induction l as [|a l IH]; simpl; [reflexivity|].
  destruct (q a) eqn:Ea; simpl.
  - now rewrite (Hf a Ea).
  - now rewrite Ea.
Qed.

Lemma In_update_first (f : D -> D) (l : list D) (x : D) :
  In x (update_first q f l) -> In x l \/ exists d, In d l /\ x = f d.
Proof.
  induction l as [|a l IH]; simpl; [tauto|].
  destruct (q a); simpl.
  - intros [<-|H]; [right; exists a; auto | auto].
  - intros [<-|H]; [auto|]. destruct (IH H) as [H1|[d [H1 H2]]]; [auto|].
    right. exists d. auto.
Qed.

Lemma In_delete_first (l : list D) (x : D) :
  In x (delete_first q l) -> In x l.
Proof.
  induction l as [|a l IH]; simpl; [tauto|].
  destruct (q a); simpl; [auto|]. intros [H|H]; auto.
Qed.
End FirstMatch.

(** With distinct identifiers, the document a delete removed is not found
    again. *)
Lemma find_delete_first_id {D : Type} (key : D -> Oid) (v : Oid)
    (l : list D) :
  NoDup (map key l) ->
  find_id key v (delete_first (id_is key v) l) = None.
Proof.
  unfold find_id. induction l as [|a l IH]; simpl; [reflexivity|].
  intros Hnd. inversion Hnd as [|k ks Hnotin Hnd']; subst.
  destruct (id_is key v a) eqn:Ea; simpl.
  - unfold id_is in Ea. apply N.eqb_eq in Ea.
    destruct (List.find (id_is key v) l) as [d|] eqn:Ef; [|reflexivity].
    apply find_some in Ef. destruct Ef as [Hin Hq].
    unfold id_is in Hq. apply N.eqb_eq in Hq.
    exfalso. apply Hnotin. rewrite Ea, <- Hq. now apply in_map.
  - rewrite Ea. now apply IH.
Qed.

Lemma find_fresh_id {D : Type} (key : D -> Oid) (v : Oid) (l : list D) :
  Forall (fun d => (key d < v)%N) l -> find_id key v l = None.
Proof.
  unfold find_id. induction 1 as [|a l Ha _ IH]; simpl; [reflexivity|].
  unfold id_is at 1. destruct (N.eqb_spec (key a) v); [lia | exact IH].
Qed.

Lemma pull_not_In (v : Oid) (l : list Oid) : ~ In v (pull v l).
Proof.
  unfold pull. rewrite filter_In. intros [_ H].
  now rewrite N.eqb_refl in H.
Qed.

(** ** Likes *)

Arguments includes : simpl never.
Arguments strict_neq : simpl never.
Arguments id_is : simpl never.

Ltac run_monad :=
  unfold bind, new_ObjectId, findOne, find, insertOne, updateOne,
    findOneAndUpdate, deleteOne, throw, ret, eq_id, put_docs, set_heap.

Lemma find_set_likes (p : Oid) (f : list Oid -> list Oid)
    (l : list (PostModel Oid)) :
  find_id (@post_id Oid) p
    (update_first (id_is (@post_id Oid) p) (set_likes f) l)
  = option_map (set_likes f) (find_id (@post_id Oid) p l).
Proof. unfold find_id. now apply find_update_first. Qed.

Lemma find_set_comments (p : Oid) (f : list Oid -> list Oid)
    (l : list (PostModel Oid)) :
  find_id (@post_id Oid) p
    (update_first (id_is (@post_id Oid) p) (set_comments f) l)
  = option_map (set_comments f) (find_id (@post_id Oid) p l).
Proof. unfold find_id. now apply find_update_first. Qed.

(** Whatever the like-set holds, [addLikeToPost] on an existing post passes
    its membership test and pushes the user. *)
Lemma addLikeToPost_pushes (postId userId : string) (p u : Oid)
    (d : PostModel Oid) (w : World) :
  ObjectId_parse postId = Some p ->
  ObjectId_parse userId = Some u ->
  find_id (@post_id Oid) p (PostCollection (ctx w)) = Some d ->
  exists r w',
    Mutation.addLikeToPost postId userId w = (Return (Some r), w')
    /\ bson_post r = set_likes (fun l => l ++ [u]) d
    /\ ctx w' = mkContext (UserCollection (ctx w))
         (update_first (id_is (@post_id Oid) p)
            (set_likes (fun l => l ++ [u])) (PostCollection (ctx w)))
         (CommentCollection (ctx w)).
Proof.
  intros Hp Hu Hd.
  unfold Mutation.addLikeToPost. run_monad.
  rewrite Hp, Hu. cbn. fold (find_id (@post_id Oid) p (PostCollection (ctx w))).
  rewrite Hd. cbn.
  rewrite includes_load_ids by (cbn; unfold post_cells; lia). cbn.
  match goal with |- context [List.find ?q ?l] => change (List.find q l) with (find_id (@post_id Oid) p l) end.
  rewrite find_set_likes, Hd. cbn.
  eexists. eexists. split; [reflexivity|]. split; [apply bson_load_post | reflexivity].
Qed.

(** Whatever the like-set holds, [removeLikeFromPost] on an existing post
    fails its membership test. *)
Lemma removeLikeFromPost_throws (postId userId : string) (p u : Oid)
    (d : PostModel Oid) (w : World) :
  ObjectId_parse postId = Some p ->
  ObjectId_parse userId = Some u ->
  find_id (@post_id Oid) p (PostCollection (ctx w)) = Some d ->
  exists w',
    Mutation.removeLikeFromPost postId userId w
    = (Throw (GraphQLError msg_not_liked), w')
    /\ ctx w' = ctx w.
Proof.
  intros Hp Hu Hd.
  unfold Mutation.removeLikeFromPost. run_monad.
  rewrite Hp, Hu. cbn. fold (find_id (@post_id Oid) p (PostCollection (ctx w))).
  rewrite Hd. cbn.
  rewrite includes_load_ids by (cbn; unfold post_cells; lia). cbn.
  eexists. split; reflexivity.
Qed.

(** C1 (the code departs from the claim).  In the scenario of the
    specification, Ana likes her post twice in a row: the second call of
    [addLikeToPost] with the same pair does not fail with the duplicate-like
    error.  It returns the refreshed post, and the like-set, which held Ana
    once after the first call, holds her twice after the second. *)
Theorem addLikeToPost_twice_duplicates :
  let postId := toHexString Scenario.hi_id in
  let userId := toHexString Scenario.ana_id in
  let w1 := snd (Mutation.addLikeToPost postId userId Scenario.w_post) in
  let run2 := Mutation.addLikeToPost postId userId w1 in
  PostCollection (ctx w1) = [Scenario.hi [Scenario.ana_id] []]
  /\ (exists r, fst run2 = Return (Some r)
        /\ bson_post r = Scenario.hi [Scenario.ana_id; Scenario.ana_id] [])
  /\ PostCollection (ctx (snd run2))
     = [Scenario.hi [Scenario.ana_id; Scenario.ana_id] []].
Proof.
  cbv zeta. split; [reflexivity|]. split; [|reflexivity].
  eexists. split; reflexivity.
Qed.

(** C2 (the code departs from the claim).  In the scenario of the
    specification, Ana has liked her post, so she is present in its
    like-set, and [removeLikeFromPost] with that pair still fails with the
    has-not-liked error and leaves the like-set as it was; the same happens
    right after a successful [addLikeToPost]. *)
Theorem removeLikeFromPost_present_throws :
  let postId := toHexString Scenario.hi_id in
  let userId := toHexString Scenario.ana_id in
  let run := Mutation.removeLikeFromPost postId userId Scenario.w_liked in
  let w1 := snd (Mutation.addLikeToPost postId userId Scenario.w_post) in
  let run' := Mutation.removeLikeFromPost postId userId w1 in
  In Scenario.ana_id (post_likes (Scenario.hi [Scenario.ana_id] []))
  /\ fst run = Throw (GraphQLError msg_not_liked)
  /\ ctx (snd run) = ctx Scenario.w_liked
  /\ fst run' = Throw (GraphQLError msg_not_liked)
  /\ PostCollection (ctx (snd run')) = [Scenario.hi [Scenario.ana_id] []].
Proof.
  cbv zeta. split; [left; reflexivity|]. repeat split; reflexivity.
Qed.

(** ** Users *)

(** When any row holds the email, the row [updateUser] found is a later
    object than [userId], and the strict inequality holds. *)
Lemma updateUser_email_held_throws (rnd : nat -> string)
    (dig : string -> string -> string) (id name email password : string)
    (i : Oid) (e : UserModel Oid) (w : World) :
  ObjectId_parse id = Some i ->
  truthy email = true ->
  List.find (eq_email email) (UserCollection (ctx w)) = Some e ->
  exists w',
    Mutation.updateUser rnd dig id name email password w
    = (Throw (GraphQLError msg_email_other_user), w')
    /\ ctx w' = ctx w.
Proof.
  intros Hi Ht He.
  unfold Mutation.updateUser. run_monad.
  rewrite Hi, Ht. cbn. rewrite He. cbn.
  rewrite strict_neq_later by (cbn; lia). cbn.
  eexists. split; reflexivity.
Qed.

(** C3 (the code departs from the claim).  In the scenario of the
    specification, Ana is the only user and updates herself while supplying
    her own current email: [updateUser] fails with the
    email-registered-by-another-user error and the store is unchanged. *)
Theorem updateUser_own_email_throws (rnd : nat -> string)
    (dig : string -> string -> string) :
  let run := Mutation.updateUser rnd dig (toHexString Scenario.ana_id)
               "Ana" "ana@x.com" "secret" Scenario.w_post in
  UserCollection (ctx Scenario.w_post) = [Scenario.ana]
  /\ user_id Scenario.ana = Scenario.ana_id
  /\ user_email Scenario.ana = "ana@x.com"%string
  /\ fst run = Throw (GraphQLError msg_email_other_user)
  /\ ctx (snd run) = ctx Scenario.w_post.
Proof.
  cbv zeta. repeat split; reflexivity.
Qed.

Lemma find_email_held (email : string) (l : list (UserModel Oid)) :
  (exists d, In d l /\ user_email d = email) ->
  exists e, List.find (eq_email email) l = Some e.
Proof.
  intros [d [Hin He]].
  destruct (List.find (eq_email email) l) as [e|] eqn:Ef; [now exists e|].
  apply (find_none _ _ Ef) in Hin. unfold eq_email in Hin.
  rewrite He, String.eqb_refl in Hin. discriminate.
Qed.

Lemma find_email_free (email : string) (w : World) :
  email_free email w ->
  List.find (eq_email email) (UserCollection (ctx w)) = None.
Proof.
  intros Hfree.
  destruct (List.find _ _) as [e|] eqn:Ef; [|reflexivity].
  apply find_some in Ef. destruct Ef as [Hin He].
  unfold eq_email in He. apply String.eqb_eq in He.
  now elim (Hfree e Hin).
Qed.

Lemma createUser_taken (rnd : nat -> string) (dig : string -> string -> string)
    (name email password : string) (e : UserModel Oid) (w : World) :
  List.find (eq_email email) (UserCollection (ctx w)) = Some e ->
  exists w',
    Mutation.createUser rnd dig name email password w
    = (Throw (GraphQLError msg_email_registered), w')
    /\ ctx w' = ctx w.
Proof.
  intros He. unfold Mutation.createUser. run_monad.
  cbn. rewrite He. cbn. eexists. split; reflexivity.
Qed.

Lemma createUser_ok (rnd : nat -> string) (dig : string -> string -> string)
    (name email password : string) (w : World) :
  List.find (eq_email email) (UserCollection (ctx w)) = None ->
  let doc := mkUser (oid_next w) name
               (hashpw dig password (salt_of rnd 8 (rng_next w))) email
               [] [] [] in
  exists u w',
    Mutation.createUser rnd dig name email password w = (Return u, w')
    /\ u = mkUser (mkObjectId (heap_next w) (oid_next w)) name
             (hashpw dig password (salt_of rnd 8 (rng_next w))) email
             [] [] []
    /\ ctx w' = mkContext (UserCollection (ctx w) ++ [doc])
                  (PostCollection (ctx w)) (CommentCollection (ctx w))
    /\ oid_next w' = N.succ (oid_next w).
Proof.
  intros He doc. unfold Mutation.createUser. run_monad.
  unfold genSalt, hash, ret.
  cbn. rewrite He. cbn. eexists. eexists.
  split; [reflexivity|]. repeat split.
Qed.

(** C4.  [createUser] fails with the duplicate-email error and leaves the
    store as it was whenever some User row holds the email.  When no row
    holds it, [createUser] returns the created User: the name and email of
    the input, the hash of the input password under a salt freshly drawn for
    cost 8, and three empty reference arrays; the User collection is the old
    one followed by exactly that row, and the other collections are
    untouched. *)
Theorem createUser_spec (rnd : nat -> string)
    (dig : string -> string -> string) (name email password : string)
    (w : World) :
  ((exists d, In d (UserCollection (ctx w)) /\ user_email d = email) ->
   exists w',
     Mutation.createUser rnd dig name email password w
     = (Throw (GraphQLError msg_email_registered), w')
     /\ ctx w' = ctx w)
  /\
  (email_free email w ->
   exists u w',
     Mutation.createUser rnd dig name email password w = (Return u, w')
     /\ user_name u = name /\ user_email u = email
     /\ user_password u = hashpw dig password (salt_of rnd 8 (rng_next w))
     /\ user_posts u = [] /\ user_comments u = [] /\ user_likedPosts u = []
     /\ UserCollection (ctx w') = UserCollection (ctx w) ++ [bson_user u]
     /\ PostCollection (ctx w') = PostCollection (ctx w)
     /\ CommentCollection (ctx w') = CommentCollection (ctx w)).
Proof.
  split.
  - intros Hheld. apply find_email_held in Hheld. destruct Hheld as [e He].
    exact (createUser_taken rnd dig name email password e w He).
  - intros Hfree. apply find_email_free in Hfree.
    destruct (createUser_ok rnd dig name email password w Hfree)
      as (u & w' & Hrun & -> & Hctx & _).
    eexists. exists w'. split; [exact Hrun|]. rewrite Hctx.
    repeat split; reflexivity.
Qed.

Lemma createUser_spec_witness :
  (exists w',
     Mutation.createUser Scenario.demo_random Scenario.demo_digest
       "Ana" "ana@x.com" "secret" Scenario.w_post
     = (Throw (GraphQLError msg_email_registered), w')
     /\ ctx w' = ctx Scenario.w_post)
  /\
  (exists u w',
     Mutation.createUser Scenario.demo_random Scenario.demo_digest
       "Ana" "ana@x.com" "secret" Scenario.w_empty = (Return u, w')
     /\ user_name u = "Ana"%string /\ user_email u = "ana@x.com"%string
     /\ user_password u
        = hashpw Scenario.demo_digest "secret"
            (salt_of Scenario.demo_random 8 0)
     /\ user_posts u = [] /\ user_comments u = [] /\ user_likedPosts u = []
     /\ UserCollection (ctx w') = [] ++ [bson_user u]
     /\ PostCollection (ctx w') = []
     /\ CommentCollection (ctx w') = []).
Proof.
  split.
  - apply (proj1 (createUser_spec Scenario.demo_random Scenario.demo_digest
                    "Ana" "ana@x.com" "secret" Scenario.w_post)).
    exists Scenario.ana. split; [left; reflexivity | reflexivity].
  - apply (proj2 (createUser_spec Scenario.demo_random Scenario.demo_digest
                    "Ana" "ana@x.com" "secret" Scenario.w_empty)).
    intros d [].
Defined.

(** ** Get-by-id *)

Lemma Query_user_found (id : string) (i : Oid) (d : UserModel Oid) (w : World) :
  ObjectId_parse id = Some i ->
  find_id (@user_id Oid) i (UserCollection (ctx w)) = Some d ->
  exists g w', Query.user id w = (Return (Some g), w')
               /\ bson_user g = d /\ ctx w' = ctx w.
Proof.
  intros Hi Hd. unfold find_id in Hd. unfold Query.user. run_monad.
  rewrite Hi. cbn. rewrite Hd. cbn.
  eexists. eexists. split; [reflexivity|].
  split; [apply bson_load_user | reflexivity].
Qed.

Lemma Query_post_found (id : string) (i : Oid) (d : PostModel Oid) (w : World) :
  ObjectId_parse id = Some i ->
  find_id (@post_id Oid) i (PostCollection (ctx w)) = Some d ->
  exists g w', Query.post id w = (Return (Some g), w')
               /\ bson_post g = d /\ ctx w' = ctx w.
Proof.
  intros Hi Hd. unfold find_id in Hd. unfold Query.post. run_monad.
  rewrite Hi. cbn. rewrite Hd. cbn.
  eexists. eexists. split; [reflexivity|].
  split; [apply bson_load_post | reflexivity].
Qed.

Lemma Query_comment_found (id : string) (i : Oid) (d : CommentModel Oid)
    (w : World) :
  ObjectId_parse id = Some i ->
  find_id (@comment_id Oid) i (CommentCollection (ctx w)) = Some d ->
  exists g w', Query.comment id w = (Return (Some g), w')
               /\ bson_comment g = d /\ ctx w' = ctx w.
Proof.
  intros Hi Hd. unfold find_id in Hd. unfold Query.comment. run_monad.
  rewrite Hi. cbn. rewrite Hd. cbn.
  eexists. eexists. split; [reflexivity|].
  split; [apply bson_load_comment | reflexivity].
Qed.

Lemma Query_comment_missing (id : string) (i : Oid) (w : World) :
  ObjectId_parse id = Some i ->
  find_id (@comment_id Oid) i (CommentCollection (ctx w)) = None ->
  exists w', Query.comment id w = (Return None, w') /\ ctx w' = ctx w.
Proof.
  intros Hi Hd. unfold find_id in Hd. unfold Query.comment. run_monad.
  rewrite Hi. cbn. rewrite Hd. eexists. split; reflexivity.
Qed.

(** A document appended under a fresh identifier is the one a lookup by
    that identifier finds. *)
Lemma find_id_app_fresh {D : Type} (key : D -> Oid) (v : Oid) (l : list D)
    (d : D) :
  Forall (fun x => (key x < v)%N) l -> key d = v ->
  find_id key v (l ++ [d]) = Some d.
Proof.
  intros Hl Hd. pose proof (find_fresh_id key v l Hl) as Hnone.
  unfold find_id in *. rewrite find_app_one, Hnone.
  unfold id_is. now rewrite Hd, N.eqb_refl.
Qed.

(** ** Posts and comments: creation *)

Lemma createPost_no_author (content authorId : string) (a : Oid) (w : World) :
  ObjectId_parse authorId = Some a ->
  find_id (@user_id Oid) a (UserCollection (ctx w)) = None ->
  exists w', Mutation.createPost content authorId w
             = (Throw (GraphQLError msg_no_author), w')
             /\ ctx w' = ctx w.
Proof.
  intros Ha Hu. unfold find_id in Hu. unfold Mutation.createPost. run_monad.
  rewrite Ha. cbn. rewrite Hu. eexists. split; reflexivity.
Qed.

Lemma createPost_ok (content authorId : string) (a : Oid)
    (x : UserModel Oid) (w : World) :
  ObjectId_parse authorId = Some a ->
  find_id (@user_id Oid) a (UserCollection (ctx w)) = Some x ->
  let doc := mkPost (oid_next w) (Some content) a [] [] in
  exists p w',
    Mutation.createPost content authorId w = (Return p, w')
    /\ bson_post p = doc
    /\ ctx w' = mkContext (UserCollection (ctx w))
                  (PostCollection (ctx w) ++ [doc])
                  (CommentCollection (ctx w)).
Proof.
  intros Ha Hu doc. unfold find_id in Hu.
  unfold Mutation.createPost. run_monad.
  rewrite Ha. cbn. rewrite Hu. cbn.
  eexists. eexists. split; [reflexivity|]. split; reflexivity.
Qed.

Lemma createComment_no_author (text authorId postId : string) (a : Oid)
    (w : World) :
  ObjectId_parse authorId = Some a ->
  find_id (@user_id Oid) a (UserCollection (ctx w)) = None ->
  exists w', Mutation.createComment text authorId postId w
             = (Throw (GraphQLError msg_no_author), w')
             /\ ctx w' = ctx w.
Proof.
  intros Ha Hu. unfold find_id in Hu. unfold Mutation.createComment. run_monad.
  rewrite Ha. cbn. rewrite Hu. eexists. split; reflexivity.
Qed.

Lemma createComment_no_post (text authorId postId : string) (a p : Oid)
    (x : UserModel Oid) (w : World) :
  ObjectId_parse authorId = Some a ->
  find_id (@user_id Oid) a (UserCollection (ctx w)) = Some x ->
  ObjectId_parse postId = Some p ->
  find_id (@post_id Oid) p (PostCollection (ctx w)) = None ->
  exists w', Mutation.createComment text authorId postId w
             = (Throw (GraphQLError msg_no_post), w')
             /\ ctx w' = ctx w.
Proof.
  intros Ha Hu Hp Hy. unfold find_id in Hu, Hy.
  unfold Mutation.createComment. run_monad.
  rewrite Ha, Hp. cbn. rewrite Hu. cbn. rewrite Hy.
  eexists. split; reflexivity.
Qed.

Lemma createComment_ok (text authorId postId : string) (a p : Oid)
    (x : UserModel Oid) (y : PostModel Oid) (w : World) :
  ObjectId_parse authorId = Some a ->
  find_id (@user_id Oid) a (UserCollection (ctx w)) = Some x ->
  ObjectId_parse postId = Some p ->
  find_id (@post_id Oid) p (PostCollection (ctx w)) = Some y ->
  let doc := mkComment (oid_next w) (Some text) a p in
  exists c w',
    Mutation.createComment text authorId postId w = (Return c, w')
    /\ bson_comment c = doc
    /\ ctx w' = mkContext (UserCollection (ctx w))
                  (update_first (id_is (@post_id Oid) p)
                     (set_comments (fun l => l ++ [oid_next w]))
                     (PostCollection (ctx w)))
                  (CommentCollection (ctx w) ++ [doc]).
Proof.
  intros Ha Hu Hp Hy doc. unfold find_id in Hu, Hy.
  unfold Mutation.createComment. run_monad.
  rewrite Ha, Hp. cbn. rewrite Hu. cbn. rewrite Hy. cbn.
  eexists. eexists. split; [reflexivity|]. split; reflexivity.
Qed.

(** C7.  [createComment] fails with the author-does-not-exist error when
    [authorId] resolves to no User, and with the post-does-not-exist error
    when the author exists and [postId] resolves to no Post; in both cases
    the three collections are as before.  When both resolve, it returns the
    comment with the input text, author and post under the generated
    identifier, the Comment collection is the old one followed by that
    comment, the identifier is pushed onto the comment array of the parent
    Post, which a lookup of the parent shows, and Users are untouched. *)
Theorem createComment_spec (text authorId postId : string) (a : Oid)
    (w : World) :
  ObjectId_parse authorId = Some a ->
  (find_id (@user_id Oid) a (UserCollection (ctx w)) = None ->
   exists w', Mutation.createComment text authorId postId w
              = (Throw (GraphQLError msg_no_author), w')
              /\ ctx w' = ctx w)
  /\
  (forall x p,
     find_id (@user_id Oid) a (UserCollection (ctx w)) = Some x ->
     ObjectId_parse postId = Some p ->
     (find_id (@post_id Oid) p (PostCollection (ctx w)) = None ->
      exists w', Mutation.createComment text authorId postId w
                 = (Throw (GraphQLError msg_no_post), w')
                 /\ ctx w' = ctx w)
     /\
     (forall y,
        find_id (@post_id Oid) p (PostCollection (ctx w)) = Some y ->
        exists c w',
          Mutation.createComment text authorId postId w = (Return c, w')
          /\ bson_comment c = mkComment (oid_next w) (Some text) a p
          /\ CommentCollection (ctx w')
             = CommentCollection (ctx w) ++ [bson_comment c]
          /\ PostCollection (ctx w')
             = update_first (id_is (@post_id Oid) p)
                 (set_comments (fun l => l ++ [oid (comment_id c)]))
                 (PostCollection (ctx w))
          /\ find_id (@post_id Oid) p (PostCollection (ctx w'))
             = Some (set_comments (fun l => l ++ [oid (comment_id c)]) y)
          /\ UserCollection (ctx w') = UserCollection (ctx w))).
Proof.
  intros Ha. split.
  - intros Hu. exact (createComment_no_author text authorId postId a w Ha Hu).
  - intros x p Hu Hp. split.
    + intros Hy.
      exact (createComment_no_post text authorId postId a p x w Ha Hu Hp Hy).
    + intros y Hy.
      destruct (createComment_ok text authorId postId a p x y w Ha Hu Hp Hy)
        as (c & w' & Hrun & Hc & Hctx).
      exists c, w'. split; [exact Hrun|]. split; [exact Hc|].
      assert (Hid : oid (comment_id c) = oid_next w).
      { change (oid (comment_id c)) with (comment_id (bson_comment c)).
        now rewrite Hc. }
      rewrite Hctx, Hc, Hid. cbn [CommentCollection PostCollection UserCollection].
      repeat split.
      rewrite find_set_comments, Hy. reflexivity.
Qed.

Lemma createComment_spec_witness :
  (exists w', Mutation.createComment "nice" (toHexString 9%N)
                (toHexString Scenario.hi_id) Scenario.w_post
              = (Throw (GraphQLError msg_no_author), w')
              /\ ctx w' = ctx Scenario.w_post)
  /\
  (exists w', Mutation.createComment "nice" (toHexString Scenario.ana_id)
                (toHexString 9%N) Scenario.w_post
              = (Throw (GraphQLError msg_no_post), w')
              /\ ctx w' = ctx Scenario.w_post)
  /\
  (exists c w',
     Mutation.createComment "nice" (toHexString Scenario.ana_id)
       (toHexString Scenario.hi_id) Scenario.w_post = (Return c, w')
     /\ bson_comment c = Scenario.nice
     /\ ctx w' = ctx Scenario.w_commented).
Proof.
  split; [|split].
  - apply (proj1 (createComment_spec "nice" (toHexString 9%N)
                    (toHexString Scenario.hi_id) 9%N Scenario.w_post
                    eq_refl)).
    reflexivity.
  - apply (proj1 (proj2 (createComment_spec "nice"
                    (toHexString Scenario.ana_id) (toHexString 9%N)
                    Scenario.ana_id Scenario.w_post eq_refl)
                    Scenario.ana 9%N eq_refl eq_refl)).
    reflexivity.
  - destruct (proj2 (proj2 (createComment_spec "nice"
                    (toHexString Scenario.ana_id)
                    (toHexString Scenario.hi_id)
                    Scenario.ana_id Scenario.w_post eq_refl)
                    Scenario.ana Scenario.hi_id eq_refl eq_refl)
                    (Scenario.hi [] []) eq_refl)
      as (c & w' & Hrun & Hc & Hcs & Hps & _ & Hus).
    exists c, w'. split; [exact Hrun|]. split; [exact Hc|].
    destruct w' as [[us ps cs] h o r]. cbn in Hcs, Hps, Hus |- *.
    rewrite Hcs, Hps, Hus, Hc.
    change (oid (comment_id c)) with (comment_id (bson_comment c)).
    rewrite Hc. reflexivity.
Defined.

(** ** Create, then get by id *)

(** A bcrypt hash starts with the salt, so it is not a password that does
    not start with the version prefix. *)
Lemma hashpw_not_secret (rnd : nat -> string)
    (dig : string -> string -> string) (log_rounds draw : nat) :
  hashpw dig "secret" (salt_of rnd log_rounds draw) <> "secret"%string.
Proof. unfold hashpw, salt_of. simpl. discriminate. Qed.

(** C5, as stated, fails on the password: the User that [createUser]
    returns for the password "secret" does not carry "secret" in its
    password field. *)
Lemma createUser_password_not_input :
  exists u w',
    Mutation.createUser Scenario.demo_random Scenario.demo_digest
      "Ana" "ana@x.com" "secret" Scenario.w_empty = (Return u, w')
    /\ user_name u = "Ana"%string
    /\ user_email u = "ana@x.com"%string
    /\ user_password u <> "secret"%string.
Proof.
  eexists. eexists. split; [reflexivity|].
  split; [reflexivity|]. split; [reflexivity|]. discriminate.
Qed.

(** C5, amended.  In a store whose identifiers were all generated by the
    driver, every create with valid input returns an entity whose fields are
    the input fields, except that the password of a created User is the
    salted hash of the input password; and the get-by-id query with the
    identifier string of the returned entity yields an entity with the same
    field values as the returned one.  Valid input is: for [createUser] an
    email no row holds; for [createPost] an author that resolves; for
    [createComment] an author and a post that resolve. *)
Theorem create_get_round_trip (rnd : nat -> string)
    (dig : string -> string -> string) (w : World) :
  ids_generated w ->
  (forall name email password,
     email_free email w ->
     exists u w' g w'',
       Mutation.createUser rnd dig name email password w = (Return u, w')
       /\ user_name u = name /\ user_email u = email
       /\ user_password u = hashpw dig password (salt_of rnd 8 (rng_next w))
       /\ Query.user (User.id u) w' = (Return (Some g), w'')
       /\ bson_user g = bson_user u)
  /\
  (forall content authorId a x,
     ObjectId_parse authorId = Some a ->
     find_id (@user_id Oid) a (UserCollection (ctx w)) = Some x ->
     exists p w' g w'',
       Mutation.createPost content authorId w = (Return p, w')
       /\ post_content p = Some content /\ oid (post_author p) = a
       /\ Query.post (Post.id p) w' = (Return (Some g), w'')
       /\ bson_post g = bson_post p)
  /\
  (forall text authorId postId a p x y,
     ObjectId_parse authorId = Some a ->
     find_id (@user_id Oid) a (UserCollection (ctx w)) = Some x ->
     ObjectId_parse postId = Some p ->
     find_id (@post_id Oid) p (PostCollection (ctx w)) = Some y ->
     exists c w' g w'',
       Mutation.createComment text authorId postId w = (Return c, w')
       /\ comment_text c = Some text /\ oid (comment_author c) = a
       /\ oid (comment_post c) = p
       /\ Query.comment (Comment.id c) w' = (Return (Some g), w'')
       /\ bson_comment g = bson_comment c).
Proof.
  intros (Hus & Hps & Hcs & Hbound). split; [|split].
  - intros name email password Hfree. apply find_email_free in Hfree.
    destruct (createUser_ok rnd dig name email password w Hfree)
      as (u & w' & Hrun & -> & Hctx & _).
    destruct (Query_user_found (toHexString (oid_next w)) (oid_next w)
                (mkUser (oid_next w) name
                   (hashpw dig password (salt_of rnd 8 (rng_next w)))
                   email [] [] []) w')
      as (g & w'' & Hget & Hg & _).
    { now apply ObjectId_parse_toHexString. }
    { rewrite Hctx. cbn [UserCollection].
      now apply find_id_app_fresh. }
    eexists. exists w', g, w''. split; [exact Hrun|].
    repeat split; [exact Hget | exact Hg].
  - intros content authorId a x Ha Hx.
    destruct (createPost_ok content authorId a x w Ha Hx)
      as (p & w' & Hrun & Hp & Hctx).
    destruct (Query_post_found (toHexString (oid_next w)) (oid_next w)
                (bson_post p) w')
      as (g & w'' & Hget & Hg & _).
    { now apply ObjectId_parse_toHexString. }
    { rewrite Hctx, Hp. cbn [PostCollection].
      now apply find_id_app_fresh. }
    exists p, w', g, w''. split; [exact Hrun|].
    assert (Hid : Post.id p = toHexString (oid_next w)).
    { unfold Post.id. change (oid (post_id p)) with (post_id (bson_post p)).
      now rewrite Hp. }
    rewrite Hid.
    change (post_content p) with (post_content (bson_post p)).
    change (oid (post_author p)) with (post_author (bson_post p)).
    rewrite Hp. repeat split; [exact Hget | now rewrite <- Hp].
  - intros text authorId postId a p x y Ha Hx Hp Hy.
    destruct (createComment_ok text authorId postId a p x y w Ha Hx Hp Hy)
      as (c & w' & Hrun & Hc & Hctx).
    destruct (Query_comment_found (toHexString (oid_next w)) (oid_next w)
                (bson_comment c) w')
      as (g & w'' & Hget & Hg & _).
    { now apply ObjectId_parse_toHexString. }
    { rewrite Hctx, Hc. cbn [CommentCollection].
      now apply find_id_app_fresh. }
    exists c, w', g, w''. split; [exact Hrun|].
    assert (Hid : Comment.id c = toHexString (oid_next w)).
    { unfold Comment.id.
      change (oid (comment_id c)) with (comment_id (bson_comment c)).
      now rewrite Hc. }
    rewrite Hid.
    change (comment_text c) with (comment_text (bson_comment c)).
    change (oid (comment_author c)) with (comment_author (bson_comment c)).
    change (oid (comment_post c)) with (comment_post (bson_comment c)).
    rewrite Hc. repeat split; [exact Hget | now rewrite <- Hc].
Qed.

Lemma ids_generated_w_post : ids_generated Scenario.w_post.
Proof.
  unfold ids_generated. cbn.
  repeat split; repeat constructor.
Defined.

Lemma create_get_round_trip_witness :
  (exists u w' g w'',
     Mutation.createUser Scenario.demo_random Scenario.demo_digest
       "Bea" "bea@x.com" "hunter2" Scenario.w_post = (Return u, w')
     /\ user_name u = "Bea"%string /\ user_email u = "bea@x.com"%string
     /\ user_password u
        = hashpw Scenario.demo_digest "hunter2"
            (salt_of Scenario.demo_random 8 1)
     /\ Query.user (User.id u) w' = (Return (Some g), w'')
     /\ bson_user g = bson_user u)
  /\
  (exists p w' g w'',
     Mutation.createPost "hola" (toHexString Scenario.ana_id)
       Scenario.w_post = (Return p, w')
     /\ post_content p = Some "hola"%string
     /\ oid (post_author p) = Scenario.ana_id
     /\ Query.post (Post.id p) w' = (Return (Some g), w'')
     /\ bson_post g = bson_post p)
  /\
  (exists c w' g w'',
     Mutation.createComment "nice" (toHexString Scenario.ana_id)
       (toHexString Scenario.hi_id) Scenario.w_post = (Return c, w')
     /\ comment_text c = Some "nice"%string
     /\ oid (comment_author c) = Scenario.ana_id
     /\ oid (comment_post c) = Scenario.hi_id
     /\ Query.comment (Comment.id c) w' = (Return (Some g), w'')
     /\ bson_comment g = bson_comment c).
Proof.
  pose proof (create_get_round_trip Scenario.demo_random Scenario.demo_digest
                Scenario.w_post ids_generated_w_post) as (Hu & Hp & Hc).
  split; [|split].
  - apply Hu. intros d [<-|[]]. discriminate.
  - apply (Hp "hola"%string (toHexString Scenario.ana_id) Scenario.ana_id
              Scenario.ana); reflexivity.
  - apply (Hc "nice"%string (toHexString Scenario.ana_id)
              (toHexString Scenario.hi_id) Scenario.ana_id Scenario.hi_id
              Scenario.ana (Scenario.hi [] [])); reflexivity.
Defined.

(** ** Updates *)

Lemma find_id_update_first {D : Type} (key : D -> Oid) (v : Oid) (f : D -> D)
    (l : list D) :
  (forall d, key (f d) = key d) ->
  find_id key v (update_first (id_is key v) f l)
  = option_map f (find_id key v l).
Proof.
  intros Hf. unfold find_id. apply find_update_first.
  intros d Hd. unfold id_is in *. now rewrite Hf.
Qed.

Lemma updateUser_ok (rnd : nat -> string) (dig : string -> string -> string)
    (id name email password : string) (i : Oid) (d : UserModel Oid)
    (w : World) :
  ObjectId_parse id = Some i ->
  find_id (@user_id Oid) i (UserCollection (ctx w)) = Some d ->
  truthy email = false
  \/ List.find (eq_email email) (UserCollection (ctx w)) = None ->
  exists r w',
    Mutation.updateUser rnd dig id name email password w
    = (Return (Some r), w')
    /\ bson_user r = d
    /\ ctx w' = mkContext
         (update_first (id_is (@user_id Oid) i)
            (set_user name email
               (hashpw dig password (salt_of rnd 8 (rng_next w))))
            (UserCollection (ctx w)))
         (PostCollection (ctx w)) (CommentCollection (ctx w)).
Proof.
  intros Hi Hd Hguard. unfold find_id in Hd.
  unfold Mutation.updateUser. run_monad. unfold genSalt, hash, ret.
  rewrite Hi. cbn.
  destruct Hguard as [Ht|He].
  - rewrite Ht. cbn. rewrite Hd. cbn.
    eexists. eexists. split; [reflexivity|].
    split; [apply bson_load_user | reflexivity].
  - destruct (truthy email); cbn; [rewrite He; cbn|]; rewrite Hd; cbn;
      (eexists; eexists; split; [reflexivity|];
       split; [apply bson_load_user | reflexivity]).
Qed.

Lemma updatePost_ok (id : string) (content : option string) (i : Oid)
    (d : PostModel Oid) (w : World) :
  ObjectId_parse id = Some i ->
  find_id (@post_id Oid) i (PostCollection (ctx w)) = Some d ->
  exists r w',
    Mutation.updatePost id content w = (Return (Some r), w')
    /\ bson_post r = d
    /\ ctx w' = mkContext (UserCollection (ctx w))
         (update_first (id_is (@post_id Oid) i) (set_content content)
            (PostCollection (ctx w)))
         (CommentCollection (ctx w)).
Proof.
  intros Hi Hd. unfold find_id in Hd.
  unfold Mutation.updatePost. run_monad.
  rewrite Hi. cbn. rewrite Hd. cbn.
  eexists. eexists. split; [reflexivity|].
  split; [apply bson_load_post | reflexivity].
Qed.

Lemma updateComment_ok (id : string) (text : option string) (i : Oid)
    (d : CommentModel Oid) (w : World) :
  ObjectId_parse id = Some i ->
  find_id (@comment_id Oid) i (CommentCollection (ctx w)) = Some d ->
  exists r w',
    Mutation.updateComment id text w = (Return (Some r), w')
    /\ bson_comment r = d
    /\ ctx w' = mkContext (UserCollection (ctx w)) (PostCollection (ctx w))
         (update_first (id_is (@comment_id Oid) i) (set_text text)
            (CommentCollection (ctx w))).
Proof.
  intros Hi Hd. unfold find_id in Hd.
  unfold Mutation.updateComment. run_monad.
  rewrite Hi. cbn. rewrite Hd. cbn.
  eexists. eexists. split; [reflexivity|].
  split; [apply bson_load_comment | reflexivity].
Qed.

(** C8.  On a row that exists, [updatePost] and [updateComment] return the
    row as it was before the overwrite, and so does [updateUser] whenever
    its email test lets the update through (an empty email, or an email no
    row holds); a lookup afterwards shows the overwritten row.  Whatever
    [updateUser] returns on an existing row is that earlier row. *)
Theorem update_returns_snapshot (id : string) (i : Oid) (w : World) :
  ObjectId_parse id = Some i ->
  (forall rnd dig name email password d,
     find_id (@user_id Oid) i (UserCollection (ctx w)) = Some d ->
     (truthy email = false
      \/ List.find (eq_email email) (UserCollection (ctx w)) = None ->
      exists r w',
        Mutation.updateUser rnd dig id name email password w
        = (Return (Some r), w')
        /\ bson_user r = d
        /\ find_id (@user_id Oid) i (UserCollection (ctx w'))
           = Some (set_user name email
                     (hashpw dig password (salt_of rnd 8 (rng_next w))) d))
     /\
     (forall r w',
        Mutation.updateUser rnd dig id name email password w = (Return r, w')
        -> option_map bson_user r = Some d))
  /\
  (forall content d,
     find_id (@post_id Oid) i (PostCollection (ctx w)) = Some d ->
     exists r w',
       Mutation.updatePost id content w = (Return (Some r), w')
       /\ bson_post r = d
       /\ find_id (@post_id Oid) i (PostCollection (ctx w'))
          = Some (set_content content d))
  /\
  (forall text d,
     find_id (@comment_id Oid) i (CommentCollection (ctx w)) = Some d ->
     exists r w',
       Mutation.updateComment id text w = (Return (Some r), w')
       /\ bson_comment r = d
       /\ find_id (@comment_id Oid) i (CommentCollection (ctx w'))
          = Some (set_text text d)).
Proof.
  intros Hi. split; [|split].
  - intros rnd dig name email password d Hd. split.
    + intros Hguard.
      destruct (updateUser_ok rnd dig id name email password i d w Hi Hd
                  Hguard) as (r & w' & Hrun & Hr & Hctx).
      exists r, w'. split; [exact Hrun|]. split; [exact Hr|].
      rewrite Hctx. cbn [UserCollection].
      rewrite (find_id_update_first (@user_id Oid)) by reflexivity. now rewrite Hd.
    + intros r w' Hrun.
      destruct (truthy email) eqn:Ht.
      * destruct (List.find (eq_email email) (UserCollection (ctx w)))
          as [e|] eqn:He.
        -- destruct (updateUser_email_held_throws rnd dig id name email
                       password i e w Hi Ht He) as (w1 & Hthrow & _).
           rewrite Hthrow in Hrun. discriminate.
        -- destruct (updateUser_ok rnd dig id name email password i d w Hi
                       Hd (or_intror He)) as (r1 & w1 & Hrun1 & Hr & _).
           rewrite Hrun1 in Hrun. injection Hrun as <- _.
           cbn. now rewrite Hr.
      * destruct (updateUser_ok rnd dig id name email password i d w Hi
                    Hd (or_introl Ht)) as (r1 & w1 & Hrun1 & Hr & _).
        rewrite Hrun1 in Hrun. injection Hrun as <- _.
        cbn. now rewrite Hr.
  - intros content d Hd.
    destruct (updatePost_ok id content i d w Hi Hd)
      as (r & w' & Hrun & Hr & Hctx).
    exists r, w'. split; [exact Hrun|]. split; [exact Hr|].
    rewrite Hctx. cbn [PostCollection].
    rewrite (find_id_update_first (@post_id Oid)) by reflexivity. now rewrite Hd.
  - intros text d Hd.
    destruct (updateComment_ok id text i d w Hi Hd)
      as (r & w' & Hrun & Hr & Hctx).
    exists r, w'. split; [exact Hrun|]. split; [exact Hr|].
    rewrite Hctx. cbn [CommentCollection].
    rewrite (find_id_update_first (@comment_id Oid)) by reflexivity. now rewrite Hd.
Qed.

Lemma update_returns_snapshot_witness :
  (exists r w',
     Mutation.updateUser Scenario.demo_random Scenario.demo_digest
       (toHexString Scenario.ana_id) "Ana Maria" "" "secret"
       Scenario.w_commented = (Return (Some r), w')
     /\ bson_user r = Scenario.ana
     /\ find_id (@user_id Oid) Scenario.ana_id (UserCollection (ctx w'))
        = Some (set_user "Ana Maria" ""
                  (hashpw Scenario.demo_digest "secret"
                     (salt_of Scenario.demo_random 8 1)) Scenario.ana))
  /\
  (exists r w',
     Mutation.updatePost (toHexString Scenario.hi_id) (Some "hello"%string)
       Scenario.w_commented = (Return (Some r), w')
     /\ bson_post r = Scenario.hi [] [Scenario.nice_id]
     /\ find_id (@post_id Oid) Scenario.hi_id (PostCollection (ctx w'))
        = Some (set_content (Some "hello"%string)
                  (Scenario.hi [] [Scenario.nice_id])))
  /\
  (exists r w',
     Mutation.updateComment (toHexString Scenario.nice_id)
       (Some "very nice"%string) Scenario.w_commented
     = (Return (Some r), w')
     /\ bson_comment r = Scenario.nice
     /\ find_id (@comment_id Oid) Scenario.nice_id
          (CommentCollection (ctx w'))
        = Some (set_text (Some "very nice"%string) Scenario.nice)).
Proof.
  split; [|split].
  - apply (proj1 (proj1 (update_returns_snapshot
                    (toHexString Scenario.ana_id) Scenario.ana_id
                    Scenario.w_commented eq_refl)
                    Scenario.demo_random Scenario.demo_digest
                    "Ana Maria"%string ""%string "secret"%string
                    Scenario.ana eq_refl)).
    left. reflexivity.
  - apply (proj1 (proj2 (update_returns_snapshot
                    (toHexString Scenario.hi_id) Scenario.hi_id
                    Scenario.w_commented eq_refl))).
    reflexivity.
  - apply (proj2 (proj2 (update_returns_snapshot
                    (toHexString Scenario.nice_id) Scenario.nice_id
                    Scenario.w_commented eq_refl))).
    reflexivity.
Defined.

(** ** Deletes *)

Lemma deleteUser_run (id : string) (i : Oid) (w : World) :
  ObjectId_parse id = Some i ->
  exists w',
    Mutation.deleteUser id w
    = (Return (found (find_id (@user_id Oid) i (UserCollection (ctx w)))), w')
    /\ ctx w' = mkContext
         (delete_first (id_is (@user_id Oid) i) (UserCollection (ctx w)))
         (PostCollection (ctx w)) (CommentCollection (ctx w)).
Proof.
  intros Hi. unfold Mutation.deleteUser, find_id. run_monad.
  rewrite Hi. cbn.
  destruct (List.find _ _) as [d|] eqn:Hd; cbn.
  - eexists. split; reflexivity.
  - eexists. split; [reflexivity|].
    rewrite delete_first_none by exact Hd. now destruct (ctx w).
Qed.

Lemma deletePost_run (id : string) (i : Oid) (w : World) :
  ObjectId_parse id = Some i ->
  exists w',
    Mutation.deletePost id w
    = (Return (found (find_id (@post_id Oid) i (PostCollection (ctx w)))), w')
    /\ ctx w' = mkContext (UserCollection (ctx w))
         (delete_first (id_is (@post_id Oid) i) (PostCollection (ctx w)))
         (CommentCollection (ctx w)).
Proof.
  intros Hi. unfold Mutation.deletePost, find_id. run_monad.
  rewrite Hi. cbn.
  destruct (List.find _ _) as [d|] eqn:Hd; cbn.
  - eexists. split; reflexivity.
  - eexists. split; [reflexivity|].
    rewrite delete_first_none by exact Hd. now destruct (ctx w).
Qed.

(** What a delete by identifier does to a collection, in terms of the row
    count. *)
Lemma delete_first_count {D : Type} (key : D -> Oid) (v : Oid) (l : list D) :
  (found (find_id key v l) = true <->
   S (List.length (delete_first (id_is key v) l)) = List.length l)
  /\ (found (find_id key v l) = false ->
      delete_first (id_is key v) l = l).
Proof.
  unfold find_id. destruct (List.find _ l) as [d|] eqn:Hd; cbn.
  - split; [|discriminate]. split; [intros _|reflexivity].
    exact (length_delete_first _ (id_is key v) l d Hd).
  - rewrite delete_first_none by exact Hd.
    split; [|reflexivity]. split; [discriminate | lia].
Qed.

(** C9.  For an identifier that parses, [deleteUser] and [deletePost]
    return a boolean and never throw: true exactly when one row left the
    collection, false exactly when no row has the identifier, in which case
    the store is unchanged.  With distinct identifiers in the collection, a
    repeated delete of a removed row answers false, as the delete of an
    identifier that never existed does. *)
Theorem delete_returns_removed (id : string) (i : Oid) (w : World) :
  ObjectId_parse id = Some i ->
  (exists b w',
     Mutation.deleteUser id w = (Return b, w')
     /\ (b = true <->
         S (List.length (UserCollection (ctx w')))
         = List.length (UserCollection (ctx w)))
     /\ (b = false <->
         find_id (@user_id Oid) i (UserCollection (ctx w)) = None)
     /\ (b = false -> ctx w' = ctx w)
     /\ (NoDup (map (@user_id Oid) (UserCollection (ctx w))) ->
         exists w'', Mutation.deleteUser id w' = (Return false, w'')
                     /\ ctx w'' = ctx w'))
  /\
  (exists b w',
     Mutation.deletePost id w = (Return b, w')
     /\ (b = true <->
         S (List.length (PostCollection (ctx w')))
         = List.length (PostCollection (ctx w)))
     /\ (b = false <->
         find_id (@post_id Oid) i (PostCollection (ctx w)) = None)
     /\ (b = false -> ctx w' = ctx w)
     /\ (NoDup (map (@post_id Oid) (PostCollection (ctx w))) ->
         exists w'', Mutation.deletePost id w' = (Return false, w'')
                     /\ ctx w'' = ctx w')).
Proof.
  intros Hi. split.
  - destruct (deleteUser_run id i w Hi) as (w' & Hrun & Hctx).
    destruct (delete_first_count (@user_id Oid) i (UserCollection (ctx w)))
      as [Hcount Hsame].
    eexists. exists w'. split; [exact Hrun|].
    rewrite Hctx. cbn [UserCollection]. split; [exact Hcount|].
    split; [|split].
    + destruct (find_id _ i _); cbn; split; congruence.
    + intros Hb. rewrite (Hsame Hb). now destruct (ctx w).
    + intros Hnd. destruct (deleteUser_run id i w' Hi) as (w'' & Hrun' & Hctx').
      exists w''. rewrite Hrun', Hctx', Hctx. cbn [UserCollection PostCollection CommentCollection].
      rewrite (find_delete_first_id (@user_id Oid)) by exact Hnd.
      cbn. split; [reflexivity|].
      rewrite delete_first_none; [reflexivity|].
      exact (find_delete_first_id (@user_id Oid) i _ Hnd).
  - destruct (deletePost_run id i w Hi) as (w' & Hrun & Hctx).
    destruct (delete_first_count (@post_id Oid) i (PostCollection (ctx w)))
      as [Hcount Hsame].
    eexists. exists w'. split; [exact Hrun|].
    rewrite Hctx. cbn [PostCollection]. split; [exact Hcount|].
    split; [|split].
    + destruct (find_id _ i _); cbn; split; congruence.
    + intros Hb. rewrite (Hsame Hb). now destruct (ctx w).
    + intros Hnd. destruct (deletePost_run id i w' Hi) as (w'' & Hrun' & Hctx').
      exists w''. rewrite Hrun', Hctx', Hctx. cbn [UserCollection PostCollection CommentCollection].
      rewrite (find_delete_first_id (@post_id Oid)) by exact Hnd.
      cbn. split; [reflexivity|].
      rewrite delete_first_none; [reflexivity|].
      exact (find_delete_first_id (@post_id Oid) i _ Hnd).
Qed.

Lemma delete_returns_removed_witness :
  (exists w', Mutation.deleteUser (toHexString Scenario.ana_id)
                Scenario.w_post = (Return true, w')
              /\ UserCollection (ctx w') = [])
  /\
  (exists w', Mutation.deletePost (toHexString Scenario.ana_id)
                Scenario.w_post = (Return false, w')
              /\ ctx w' = ctx Scenario.w_post).
Proof.
  destruct (delete_returns_removed (toHexString Scenario.ana_id)
              Scenario.ana_id Scenario.w_post eq_refl)
    as [(b & w' & Hrun & Hlen & Hnone & _) (b' & w'' & Hrun' & _ & Hnone' & Hsame & _)].
  split.
  - exists w'. destruct b.
    + split; [exact Hrun|]. apply proj1 in Hlen. specialize (Hlen eq_refl).
      destruct (UserCollection (ctx w')); [reflexivity | discriminate].
    + apply proj1 in Hnone. specialize (Hnone eq_refl). discriminate.
  - exists w''. destruct b'.
    + apply proj2 in Hnone'. specialize (Hnone' eq_refl). discriminate.
    + split; [exact Hrun' | exact (Hsame eq_refl)].
Defined.

(** ** Deleting a comment *)

Lemma deleteComment_missing (id : string) (i : Oid) (w : World) :
  ObjectId_parse id = Some i ->
  find_id (@comment_id Oid) i (CommentCollection (ctx w)) = None ->
  exists w', Mutation.deleteComment id w
             = (Throw (GraphQLError msg_no_comment), w')
             /\ ctx w' = ctx w.
Proof.
  intros Hi Hc. unfold find_id in Hc. unfold Mutation.deleteComment. run_monad.
  rewrite Hi. cbn. rewrite Hc. eexists. split; reflexivity.
Qed.

Lemma deleteComment_cascade_run (comment : CommentModel ObjectId)
    (commentId : ObjectId) (n : N) (w : World) :
  (n = 1%N ->
   exists w',
     Mutation.deleteComment_cascade comment commentId n w = (Return true, w')
     /\ ctx w' = mkContext (UserCollection (ctx w))
          (update_first (id_is (@post_id Oid) (oid (comment_post comment)))
             (set_comments (pull (oid commentId))) (PostCollection (ctx w)))
          (CommentCollection (ctx w)))
  /\ (n <> 1%N ->
      Mutation.deleteComment_cascade comment commentId n w = (Return false, w)).
Proof.
  unfold Mutation.deleteComment_cascade. split.
  - intros ->. run_monad. cbn. eexists. split; reflexivity.
  - intros Hn. apply N.eqb_neq in Hn. now rewrite Hn.
Qed.

Lemma deleteComment_ok (id : string) (i : Oid) (c : CommentModel Oid)
    (w : World) :
  ObjectId_parse id = Some i ->
  find_id (@comment_id Oid) i (CommentCollection (ctx w)) = Some c ->
  exists w',
    Mutation.deleteComment id w = (Return true, w')
    /\ ctx w' = mkContext (UserCollection (ctx w))
         (update_first (id_is (@post_id Oid) (comment_post c))
            (set_comments (pull i)) (PostCollection (ctx w)))
         (delete_first (id_is (@comment_id Oid) i)
            (CommentCollection (ctx w))).
Proof.
  intros Hi Hc. unfold find_id in Hc.
  unfold Mutation.deleteComment, Mutation.deleteComment_cascade. run_monad.
  rewrite Hi. cbn. rewrite Hc. cbn. rewrite Hc. cbn.
  eexists. split; reflexivity.
Qed.

(** C6.  [deleteComment] fails with the comment-does-not-exist error, and
    changes nothing, when no Comment has the identifier.  On an existing
    comment it removes the Comment, which a later lookup and a later
    get-by-id no longer find, pulls the identifier from the comment array of
    the parent Post and returns true.  The branch after the delete returns
    true and pulls exactly when the reported count is one; on any other
    count it returns false and touches nothing. *)
Theorem deleteComment_spec (id : string) (i : Oid) (w : World) :
  ObjectId_parse id = Some i ->
  NoDup (map (@comment_id Oid) (CommentCollection (ctx w))) ->
  (find_id (@comment_id Oid) i (CommentCollection (ctx w)) = None ->
   exists w', Mutation.deleteComment id w
              = (Throw (GraphQLError msg_no_comment), w')
              /\ ctx w' = ctx w)
  /\
  (forall c,
     find_id (@comment_id Oid) i (CommentCollection (ctx w)) = Some c ->
     exists w',
       Mutation.deleteComment id w = (Return true, w')
       /\ S (List.length (CommentCollection (ctx w')))
          = List.length (CommentCollection (ctx w))
       /\ find_id (@comment_id Oid) i (CommentCollection (ctx w')) = None
       /\ (exists w'', Query.comment id w' = (Return None, w''))
       /\ PostCollection (ctx w')
          = update_first (id_is (@post_id Oid) (comment_post c))
              (set_comments (pull i)) (PostCollection (ctx w))
       /\ (forall p,
             find_id (@post_id Oid) (comment_post c) (PostCollection (ctx w'))
             = Some p -> ~ In i (post_comments p))
       /\ UserCollection (ctx w') = UserCollection (ctx w))
  /\
  (forall comment commentId n w0,
     (n = 1%N ->
      exists w',
        Mutation.deleteComment_cascade comment commentId n w0
        = (Return true, w')
        /\ PostCollection (ctx w')
           = update_first (id_is (@post_id Oid) (oid (comment_post comment)))
               (set_comments (pull (oid commentId)))
               (PostCollection (ctx w0)))
     /\ (n <> 1%N ->
         Mutation.deleteComment_cascade comment commentId n w0
         = (Return false, w0))).
Proof.
  intros Hi Hnd. split; [|split].
  - intros Hc. exact (deleteComment_missing id i w Hi Hc).
  - intros c Hc.
    destruct (deleteComment_ok id i c w Hi Hc) as (w' & Hrun & Hctx).
    assert (Hgone : find_id (@comment_id Oid) i (CommentCollection (ctx w'))
                    = None).
    { rewrite Hctx. cbn [CommentCollection].
      now apply find_delete_first_id. }
    exists w'. split; [exact Hrun|]. split; [|split; [exact Hgone|split]].
    + rewrite Hctx. cbn [CommentCollection].
      exact (length_delete_first _ _ _ c Hc).
    + destruct (Query_comment_missing id i w' Hi Hgone) as (w'' & Hq & _).
      now exists w''.
    + rewrite Hctx. cbn [PostCollection UserCollection].
      split; [reflexivity|]. split; [|reflexivity].
      intros p Hp.
      rewrite (find_id_update_first (@post_id Oid)) in Hp by reflexivity.
      destruct (find_id (@post_id Oid) (comment_post c)
                  (PostCollection (ctx w))) as [p0|];
        cbn in Hp; [|discriminate].
      injection Hp as <-. cbn. apply pull_not_In.
  - intros comment commentId n w0.
    destruct (deleteComment_cascade_run comment commentId n w0) as [H1 H2].
    split; [|exact H2].
    intros Hn. destruct (H1 Hn) as (w' & Hrun & Hctx).
    exists w'. split; [exact Hrun|]. now rewrite Hctx.
Qed.

Lemma NoDup_w_commented :
  NoDup (map (@comment_id Oid) (CommentCollection (ctx Scenario.w_commented))).
Proof. repeat constructor. intros []. Defined.

Lemma deleteComment_spec_witness :
  (exists w', Mutation.deleteComment (toHexString 9%N) Scenario.w_commented
              = (Throw (GraphQLError msg_no_comment), w')
              /\ ctx w' = ctx Scenario.w_commented)
  /\
  (exists w',
     Mutation.deleteComment (toHexString Scenario.nice_id)
       Scenario.w_commented = (Return true, w')
     /\ find_id (@comment_id Oid) Scenario.nice_id
          (CommentCollection (ctx w')) = None
     /\ PostCollection (ctx w') = [Scenario.hi [] []]).
Proof.
  split.
  - apply (proj1 (deleteComment_spec (toHexString 9%N) 9%N
                    Scenario.w_commented eq_refl NoDup_w_commented)).
    reflexivity.
  - destruct (proj1 (proj2 (deleteComment_spec
                (toHexString Scenario.nice_id) Scenario.nice_id
                Scenario.w_commented eq_refl NoDup_w_commented))
                Scenario.nice eq_refl)
      as (w' & Hrun & _ & Hgone & _ & Hposts & _).
    exists w'. split; [exact Hrun|]. split; [exact Hgone|].
    rewrite Hposts. reflexivity.
Defined.

(** ** The reference arrays of a User row *)

Ltac split_run :=
  repeat (cbn;
          match goal with
          | |- context [match ObjectId_parse ?s with _ => _ end] =>
              destruct (ObjectId_parse s)
          | |- context [match List.find ?q ?l with _ => _ end] =>
              destruct (List.find q l)
          | |- context [includes ?l ?x] =>
              destruct (includes l x)
          | |- context [strict_neq ?a ?b] =>
              destruct (strict_neq a b)
          | |- context [if truthy ?s then _ else _] =>
              destruct (truthy s)
          end);
  cbn.

(** The mutations of posts and comments do not touch the User collection. *)
Lemma users_frame (rnd : nat -> string) (dig : string -> string -> string)
    (c : Call) (w : World) :
  on_users c = false ->
  UserCollection (ctx (exec rnd dig c w)) = UserCollection (ctx w).
Proof.
  destruct c; cbn [on_users exec]; try discriminate; intros _.
  - unfold Mutation.createPost. run_monad. split_run; reflexivity.
  - unfold Mutation.updatePost. run_monad. split_run; reflexivity.
  - unfold Mutation.deletePost. run_monad. split_run; reflexivity.
  - unfold Mutation.addLikeToPost. run_monad. split_run; reflexivity.
  - unfold Mutation.removeLikeFromPost. run_monad. split_run; reflexivity.
  - unfold Mutation.createComment. run_monad. split_run; reflexivity.
  - unfold Mutation.updateComment. run_monad. split_run; reflexivity.
  - unfold Mutation.deleteComment, Mutation.deleteComment_cascade.
    run_monad. split_run; reflexivity.
Qed.

(** What the three mutations of users do to the User collection. *)
Lemma users_after_createUser (rnd : nat -> string)
    (dig : string -> string -> string) (name email password : string)
    (w : World) :
  let us := UserCollection (ctx w) in
  let us' := UserCollection
               (ctx (snd (Mutation.createUser rnd dig name email password w)))
  in
  us' = us \/ exists h, us' = us ++ [mkUser (oid_next w) name h email [] [] []].
Proof.
  cbv zeta. unfold Mutation.createUser. run_monad. unfold genSalt, hash, ret.
  split_run; [left; reflexivity | right; eexists; reflexivity].
Qed.

Lemma users_after_updateUser (rnd : nat -> string)
    (dig : string -> string -> string) (id name email password : string)
    (w : World) :
  let us := UserCollection (ctx w) in
  let us' := UserCollection
               (ctx (snd (Mutation.updateUser rnd dig id name email
                            password w)))
  in
  us' = us \/ exists q h, us' = update_first q (set_user name email h) us.
Proof.
  cbv zeta. unfold Mutation.updateUser. run_monad. unfold genSalt, hash, ret.
  split_run;
    first [ left; reflexivity | right; eexists; eexists; reflexivity ].
Qed.

Lemma users_after_deleteUser (id : string) (w : World) :
  let us := UserCollection (ctx w) in
  let us' := UserCollection (ctx (snd (Mutation.deleteUser id w))) in
  us' = us \/ exists q, us' = delete_first q us.
Proof.
  cbv zeta. unfold Mutation.deleteUser. run_monad.
  split_run; first [ left; reflexivity | right; eexists; reflexivity ].
Qed.

Lemma same_refs_refl (d : UserModel Oid) : same_refs d d.
Proof. repeat split. Qed.

(** Every row a call leaves in the User collection either is new, with
    empty arrays, or carries the arrays of the earlier row with its
    identifier. *)
Lemma user_rows_after_call (rnd : nat -> string)
    (dig : string -> string -> string) (c : Call) (w : World)
    (d' : UserModel Oid) :
  In d' (UserCollection (ctx (exec rnd dig c w))) ->
  (exists d, In d (UserCollection (ctx w))
             /\ user_id d = user_id d' /\ same_refs d d')
  \/ (on_users c = true /\ refs_empty d').
Proof.
  intros Hin.
  destruct (on_users c) eqn:Hc.
  - destruct c; cbn [on_users] in Hc; try discriminate; cbn [exec] in Hin.
    + destruct (users_after_createUser rnd dig name email password w)
        as [E|[h E]]; rewrite E in Hin.
      * left. exists d'. auto using same_refs_refl.
      * apply in_app_or in Hin. destruct Hin as [Hin|[<-|[]]].
        -- left. exists d'. auto using same_refs_refl.
        -- right. split; [reflexivity|]. repeat split.
    + destruct (users_after_updateUser rnd dig id name email password w)
        as [E|(q & h & E)]; rewrite E in Hin.
      * left. exists d'. auto using same_refs_refl.
      * apply In_update_first in Hin. destruct Hin as [Hin|(d & Hin & ->)].
        -- left. exists d'. auto using same_refs_refl.
        -- left. exists d. split; [exact Hin|]. repeat split.
    + destruct (users_after_deleteUser id w) as [E|[q E]]; rewrite E in Hin.
      * left. exists d'. auto using same_refs_refl.
      * apply In_delete_first in Hin.
        left. exists d'. auto using same_refs_refl.
  - rewrite (users_frame rnd dig c w Hc) in Hin.
    left. exists d'. auto using same_refs_refl.
Qed.

(** Deserialising the documents a query found gives them back. *)
Lemma map_bson_load_posts (h : nat) (l : list (PostModel Oid)) :
  map bson_post (load_all Posts h l) = l.
Proof.
  revert h. induction l as [|d l IH]; intros h; cbn; [reflexivity|].
  now rewrite bson_load_post, IH.
Qed.

Lemma map_bson_load_comments (h : nat) (l : list (CommentModel Oid)) :
  map bson_comment (load_all Comments h l) = l.
Proof.
  revert h. induction l as [|d l IH]; intros h; cbn; [reflexivity|].
  now rewrite bson_load_comment, IH.
Qed.

(** C10.  A call of a mutation of posts or comments leaves the User
    collection exactly as it was.  After any call of any mutation, every
    User row either carries the three reference arrays of the earlier row
    with its identifier or is a new row with three empty arrays; so rows
    whose arrays are all empty, as [createUser] writes them, stay so.  The
    field resolvers [User.posts], [User.comments] and [User.likedPosts]
    return the documents of the Post and Comment collections selected by the
    identifier of the parent, and give the same result for two parents with
    the same identifier, whatever their arrays hold. *)
Theorem user_refs_never_written (rnd : nat -> string)
    (dig : string -> string -> string) (c : Call) (w : World) :
  (on_users c = false ->
   UserCollection (ctx (exec rnd dig c w)) = UserCollection (ctx w))
  /\
  (forall d', In d' (UserCollection (ctx (exec rnd dig c w))) ->
     (exists d, In d (UserCollection (ctx w))
                /\ user_id d = user_id d' /\ same_refs d d')
     \/ (on_users c = true /\ refs_empty d'))
  /\
  (Forall refs_empty (UserCollection (ctx w)) ->
   Forall refs_empty (UserCollection (ctx (exec rnd dig c w))))
  /\
  (forall parent,
     (exists r w', User.posts parent w = (Return r, w')
        /\ map bson_post r
           = filter (id_is (@post_author Oid) (oid (user_id parent)))
               (PostCollection (ctx w)))
     /\ (exists r w', User.comments parent w = (Return r, w')
        /\ map bson_comment r
           = filter (id_is (@comment_author Oid) (oid (user_id parent)))
               (CommentCollection (ctx w)))
     /\ (exists r w', User.likedPosts parent w = (Return r, w')
        /\ map bson_post r
           = filter (fun d => existsb (N.eqb (oid (user_id parent)))
                                (post_likes d))
               (PostCollection (ctx w))))
  /\
  (forall parent parent',
     oid (user_id parent) = oid (user_id parent') ->
     User.posts parent w = User.posts parent' w
     /\ User.comments parent w = User.comments parent' w
     /\ User.likedPosts parent w = User.likedPosts parent' w).
Proof.
  split; [exact (users_frame rnd dig c w)|].
  split; [intros d'; exact (user_rows_after_call rnd dig c w d')|].
  split; [|split].
  - intros Hall. apply Forall_forall. intros d' Hin.
    destruct (user_rows_after_call rnd dig c w d' Hin)
      as [(d & Hd & _ & H1 & H2 & H3)|[_ He]]; [|exact He].
    rewrite Forall_forall in Hall. destruct (Hall d Hd) as (E1 & E2 & E3).
    repeat split; congruence.
  - intros parent. unfold User.posts, User.comments, User.likedPosts.
    unfold find, eq_id, has_id. cbn.
    split; [|split]; eexists; eexists; (split; [reflexivity|]).
    + apply map_bson_load_posts.
    + apply map_bson_load_comments.
    + apply map_bson_load_posts.
  - intros parent parent' E.
    unfold User.posts, User.comments, User.likedPosts, eq_id, has_id.
    rewrite E. repeat split.
Qed.

Lemma user_refs_never_written_witness :
  UserCollection
    (ctx (exec Scenario.demo_random Scenario.demo_digest
            (CreateComment "nice" (toHexString Scenario.ana_id)
               (toHexString Scenario.hi_id)) Scenario.w_post))
  = [Scenario.ana]
  /\ Forall refs_empty
       (UserCollection
          (ctx (exec Scenario.demo_random Scenario.demo_digest
                  (AddLikeToPost (toHexString Scenario.hi_id)
                     (toHexString Scenario.ana_id)) Scenario.w_post))).
Proof.
  split.
  - apply (proj1 (user_refs_never_written Scenario.demo_random
                    Scenario.demo_digest
                    (CreateComment "nice" (toHexString Scenario.ana_id)
                       (toHexString Scenario.hi_id)) Scenario.w_post)).
    reflexivity.
  - apply (proj1 (proj2 (proj2 (user_refs_never_written Scenario.demo_random
                    Scenario.demo_digest
                    (AddLikeToPost (toHexString Scenario.hi_id)
                       (toHexString Scenario.ana_id)) Scenario.w_post)))).
    repeat constructor.
Defined.

(** ** The store stays in order *)

Section CollSteps.
Variable D : Type.
Variable key : D -> Oid.

Lemma map_key_update_first (q : D -> bool) (f : D -> D) (l : list D) :
  (forall d, key (f d) = key d) ->
  map key (update_first q f l) = map key l.
Proof.
  intros Hf. induction l as [|a l IH]; simpl; [reflexivity|].
  destruct (q a); simpl; [now rewrite Hf | now rewrite IH].
Qed.

Lemma Forall_update_first (P : D -> Prop) (q : D -> bool) (f : D -> D)
    (l : list D) :
  (forall d, P d -> P (f d)) ->
  Forall P l -> Forall P (update_first q f l).
Proof.
  intros Hf. induction 1 as [|a l Ha Hl IH]; simpl; [constructor|].
  destruct (q a); constructor; auto.
Qed.

Lemma Forall_delete_first (P : D -> Prop) (q : D -> bool) (l : list D) :
  Forall P l -> Forall P (delete_first q l).
Proof.
  induction 1 as [|a l Ha Hl IH]; simpl; [constructor|].
  destruct (q a); [assumption | constructor; assumption].
Qed.

Lemma NoDup_delete_first (q : D -> bool) (l : list D) :
  NoDup (map key l) -> NoDup (map key (delete_first q l)).
Proof.
  induction l as [|a l IH]; simpl; [auto|].
  intros Hnd. inversion Hnd as [|k ks Hnotin Hnd']; subst.
  destruct (q a); [assumption|]. simpl. constructor; [|auto].
  intros Hin. apply Hnotin. apply in_map_iff in Hin.
  destruct Hin as (d & Hk & Hd). apply In_delete_first in Hd.
  rewrite <- Hk. now apply in_map.
Qed.

Lemma coll_ok_step (n n' : Oid) (l l' : list D) :
  (n <= n')%N -> coll_ok key n l -> coll_step key n n' l l' ->
  coll_ok key n' l'.
Proof.
  intros Hle [Hlt Hnd] Hstep.
  assert (Hlt' : Forall (fun d => (key d < n')%N) l).
  { eapply Forall_impl; [|exact Hlt]. cbn. intros d Hd. lia. }
  destruct Hstep as [|d Hd Hn|q f Hf|q]; split.
  - exact Hlt'.
  - exact Hnd.
  - apply Forall_app. split; [exact Hlt'|]. constructor; [lia | constructor].
  - rewrite map_app. cbn. rewrite Hd.
    apply NoDup_app; [exact Hnd | repeat constructor; intros [] |].
    intros k Hk [<-|[]]. apply in_map_iff in Hk.
    destruct Hk as (x & Hx & Hin). rewrite Forall_forall in Hlt.
    specialize (Hlt x Hin). lia.
  - apply Forall_update_first; [|exact Hlt']. intros d. now rewrite Hf.
  - now rewrite map_key_update_first.
  - now apply Forall_delete_first.
  - now apply NoDup_delete_first.
Qed.
End CollSteps.

Ltac solve_step :=
  first [ apply step_same
        | apply step_insert; [reflexivity | lia]
        | apply step_update; reflexivity
        | apply step_delete ].

(** Every call changes each collection by one of the four steps. *)
Lemma exec_steps (rnd : nat -> string) (dig : string -> string -> string)
    (c : Call) (w : World) :
  (oid_next w <= oid_next (exec rnd dig c w))%N
  /\ coll_step (@user_id Oid) (oid_next w) (oid_next (exec rnd dig c w))
       (UserCollection (ctx w)) (UserCollection (ctx (exec rnd dig c w)))
  /\ coll_step (@post_id Oid) (oid_next w) (oid_next (exec rnd dig c w))
       (PostCollection (ctx w)) (PostCollection (ctx (exec rnd dig c w)))
  /\ coll_step (@comment_id Oid) (oid_next w) (oid_next (exec rnd dig c w))
       (CommentCollection (ctx w))
       (CommentCollection (ctx (exec rnd dig c w))).
Proof.
  destruct c; cbn [exec].
  - unfold Mutation.createUser. run_monad. unfold genSalt, hash, ret.
    split_run; (split; [lia|]); repeat split; solve_step.
  - unfold Mutation.updateUser. run_monad. unfold genSalt, hash, ret.
    split_run; (split; [lia|]); repeat split; solve_step.
  - unfold Mutation.deleteUser. run_monad.
    split_run; (split; [lia|]); repeat split; solve_step.
  - unfold Mutation.createPost. run_monad.
    split_run; (split; [lia|]); repeat split; solve_step.
  - unfold Mutation.updatePost. run_monad.
    split_run; (split; [lia|]); repeat split; solve_step.
  - unfold Mutation.deletePost. run_monad.
    split_run; (split; [lia|]); repeat split; solve_step.
  - unfold Mutation.addLikeToPost. run_monad.
    split_run; (split; [lia|]); repeat split; solve_step.
  - unfold Mutation.removeLikeFromPost. run_monad.
    split_run; (split; [lia|]); repeat split; solve_step.
  - unfold Mutation.createComment. run_monad.
    split_run; (split; [lia|]); repeat split; solve_step.
  - unfold Mutation.updateComment. run_monad.
    split_run; (split; [lia|]); repeat split; solve_step.
  - unfold Mutation.deleteComment, Mutation.deleteComment_cascade. run_monad.
    split_run; (split; [lia|]); repeat split; solve_step.
Qed.

(** Distinct identifiers, all generated earlier: an invariant of every
    call, whether it returns or throws. *)
Lemma store_ok_exec (rnd : nat -> string) (dig : string -> string -> string)
    (c : Call) (w : World) :
  store_ok w -> store_ok (exec rnd dig c w).
Proof.
  intros (Hu & Hp & Hc).
  destruct (exec_steps rnd dig c w) as (Hle & Su & Sp & Sc).
  split; [|split]; eapply coll_ok_step; eassumption.
Qed.

Lemma store_ok_reachable (rnd : nat -> string)
    (dig : string -> string -> string) (w : World) :
  reachable rnd dig w -> store_ok w.
Proof.
  induction 1 as [h n r|c w _ IH].
  - repeat split; constructor.
  - now apply store_ok_exec.
Qed.

(** In a reachable world the premises of the round trip and of the delete
    properties hold, as long as the generator has values left. *)
Lemma reachable_ids_generated (rnd : nat -> string)
    (dig : string -> string -> string) (w : World) :
  reachable rnd dig w -> (oid_next w < 2 ^ 96)%N ->
  ids_generated w
  /\ NoDup (map (@user_id Oid) (UserCollection (ctx w)))
  /\ NoDup (map (@post_id Oid) (PostCollection (ctx w)))
  /\ NoDup (map (@comment_id Oid) (CommentCollection (ctx w))).
Proof.
  intros Hr Hb. apply store_ok_reachable in Hr.
  destruct Hr as ((Hu & Hu') & (Hp & Hp') & (Hc & Hc')).
  unfold ids_generated. tauto.
Qed.

(** * Further properties of the resolvers *)

(** ** Malformed identifiers *)

(** X1.  Every resolver starts by building an [ObjectId] from its first (or
    only) identifier argument; when that string is not a well-formed
    identifier, the resolver stops on the driver's error before it reads or
    writes anything: the world is exactly as before. *)
Theorem malformed_id_throws (id : string) (w : World) :
  ObjectId_parse id = None ->
  throws_bson (Query.user id w) w
  /\ throws_bson (Query.post id w) w
  /\ throws_bson (Query.comment id w) w
  /\ (forall rnd dig name email password,
        throws_bson (Mutation.updateUser rnd dig id name email password w) w)
  /\ throws_bson (Mutation.deleteUser id w) w
  /\ (forall content, throws_bson (Mutation.createPost content id w) w)
  /\ (forall content, throws_bson (Mutation.updatePost id content w) w)
  /\ throws_bson (Mutation.deletePost id w) w
  /\ (forall userId, throws_bson (Mutation.addLikeToPost id userId w) w)
  /\ (forall userId, throws_bson (Mutation.removeLikeFromPost id userId w) w)
  /\ (forall text postId,
        throws_bson (Mutation.createComment text id postId w) w)
  /\ (forall text, throws_bson (Mutation.updateComment id text w) w)
  /\ throws_bson (Mutation.deleteComment id w) w.
Proof.
  intros Hbad. unfold throws_bson.
  unfold Query.user, Query.post, Query.comment, Mutation.updateUser,
    Mutation.deleteUser, Mutation.createPost, Mutation.updatePost,
    Mutation.deletePost, Mutation.addLikeToPost, Mutation.removeLikeFromPost,
    Mutation.createComment, Mutation.updateComment, Mutation.deleteComment.
  unfold bind at 1 2 3 4 5 6 7 8 9 10 11 12 13.
  unfold new_ObjectId. rewrite Hbad.
  repeat split; intros; eexists; reflexivity.
Qed.

Lemma malformed_id_throws_witness :
  throws_bson (Query.user "ana" Scenario.w_post) Scenario.w_post
  /\ throws_bson (Mutation.deleteUser "" Scenario.w_post) Scenario.w_post
  /\ throws_bson
       (Mutation.deleteComment "00000000000000000000000g" Scenario.w_post)
       Scenario.w_post.
Proof.
  split; [|split].
  - apply (malformed_id_throws "ana" Scenario.w_post eq_refl).
  - apply (malformed_id_throws "" Scenario.w_post eq_refl).
  - apply (malformed_id_throws "00000000000000000000000g" Scenario.w_post
             eq_refl).
Defined.

(** X2.  The mutations with two identifiers look the first one up before
    they build the second.  For [addLikeToPost] and [removeLikeFromPost]:
    when no post has [postId] they fail with the publication-does-not-exist
    error whatever [userId] is, well-formed or not; when the post exists and
    [userId] is malformed they stop on the driver's error.  For
    [createComment]: when the author exists and [postId] is malformed it
    stops on the driver's error.  None of these runs changes the store. *)
Theorem second_identifier_errors (first : string) (v : Oid) (w : World) :
  ObjectId_parse first = Some v ->
  (find_id (@post_id Oid) v (PostCollection (ctx w)) = None ->
   forall userId,
     throws_keeping (Mutation.addLikeToPost first userId w)
       msg_no_publication w
     /\ throws_keeping (Mutation.removeLikeFromPost first userId w)
          msg_no_publication w)
  /\
  (forall d userId,
     find_id (@post_id Oid) v (PostCollection (ctx w)) = Some d ->
     ObjectId_parse userId = None ->
     (exists message w',
        Mutation.addLikeToPost first userId w
        = (Throw (BSONError message), w') /\ ctx w' = ctx w)
     /\ (exists message w',
           Mutation.removeLikeFromPost first userId w
           = (Throw (BSONError message), w') /\ ctx w' = ctx w))
  /\
  (forall x text postId,
     find_id (@user_id Oid) v (UserCollection (ctx w)) = Some x ->
     ObjectId_parse postId = None ->
     exists message w',
       Mutation.createComment text first postId w
       = (Throw (BSONError message), w') /\ ctx w' = ctx w).
Proof.
  intros Hv. unfold find_id, throws_keeping. split; [|split].
  - intros Hnone userId.
    unfold Mutation.addLikeToPost, Mutation.removeLikeFromPost. run_monad.
    rewrite Hv. cbn. rewrite Hnone. cbn. repeat split.
  - intros d userId Hd Hbad.
    unfold Mutation.addLikeToPost, Mutation.removeLikeFromPost. run_monad.
    rewrite Hv, Hbad. cbn. rewrite Hd. cbn.
    split; eexists; eexists; split; reflexivity.
  - intros x text postId Hx Hbad.
    unfold Mutation.createComment. run_monad.
    rewrite Hv, Hbad. cbn. rewrite Hx. cbn.
    eexists. eexists. split; reflexivity.
Qed.

Lemma second_identifier_errors_witness :
  throws_keeping
    (Mutation.addLikeToPost (toHexString 9%N) "not an id" Scenario.w_post)
    msg_no_publication Scenario.w_post
  /\ (exists message w',
        Mutation.removeLikeFromPost (toHexString Scenario.hi_id) "ana"
          Scenario.w_liked
        = (Throw (BSONError message), w') /\ ctx w' = ctx Scenario.w_liked)
  /\ (exists message w',
        Mutation.createComment "nice" (toHexString Scenario.ana_id) "hi"
          Scenario.w_post
        = (Throw (BSONError message), w') /\ ctx w' = ctx Scenario.w_post).
Proof.
  split; [|split].
  - apply (proj1 (second_identifier_errors (toHexString 9%N) 9%N
                    Scenario.w_post eq_refl) eq_refl "not an id"%string).
  - apply (proj1 (proj2 (second_identifier_errors
                    (toHexString Scenario.hi_id) Scenario.hi_id
                    Scenario.w_liked eq_refl))
             (Scenario.hi [Scenario.ana_id] []) "ana"%string eq_refl eq_refl).
  - apply (proj2 (proj2 (second_identifier_errors
                    (toHexString Scenario.ana_id) Scenario.ana_id
                    Scenario.w_post eq_refl))
             Scenario.ana "nice"%string "hi"%string eq_refl eq_refl).
Defined.

(** ** Queries *)

Lemma filter_all {A : Type} (l : list A) : filter (fun _ => true) l = l.
Proof. induction l as [|a l IH]; simpl; [reflexivity | now rewrite IH]. Qed.

Lemma map_bson_load_users (h : nat) (l : list (UserModel Oid)) :
  map bson_user (load_all Users h l) = l.
Proof.
  revert h. induction l as [|d l IH]; intros h; cbn; [reflexivity|].
  now rewrite bson_load_user, IH.
Qed.

(** X3.  The list-all queries return every document of their collection,
    in store order and with all field values, and leave the store as it
    was; on an empty collection the result is the empty list. *)
Theorem list_all_returns_collection (w : World) :
  (exists r w', Query.users w = (Return r, w')
     /\ map bson_user r = UserCollection (ctx w) /\ ctx w' = ctx w)
  /\ (exists r w', Query.posts w = (Return r, w')
     /\ map bson_post r = PostCollection (ctx w) /\ ctx w' = ctx w)
  /\ (exists r w', Query.comments w = (Return r, w')
     /\ map bson_comment r = CommentCollection (ctx w) /\ ctx w' = ctx w).
Proof.
  unfold Query.users, Query.posts, Query.comments, find. cbn.
  rewrite !filter_all.
  split; [|split]; eexists; eexists; (split; [reflexivity|]); split;
    try reflexivity.
  - apply map_bson_load_users.
  - apply map_bson_load_posts.
  - apply map_bson_load_comments.
Qed.

(** X4.  A get-by-id query with a well-formed identifier never throws: it
    returns the first document of the collection whose [_id] has that
    value, with all its field values, or null when there is none; the store
    is as before. *)
Theorem get_by_id_returns_lookup (id : string) (i : Oid) (w : World) :
  ObjectId_parse id = Some i ->
  (exists r w', Query.user id w = (Return r, w')
     /\ option_map bson_user r
        = find_id (@user_id Oid) i (UserCollection (ctx w))
     /\ ctx w' = ctx w)
  /\ (exists r w', Query.post id w = (Return r, w')
     /\ option_map bson_post r
        = find_id (@post_id Oid) i (PostCollection (ctx w))
     /\ ctx w' = ctx w)
  /\ (exists r w', Query.comment id w = (Return r, w')
     /\ option_map bson_comment r
        = find_id (@comment_id Oid) i (CommentCollection (ctx w))
     /\ ctx w' = ctx w).
Proof.
  intros Hi. unfold Query.user, Query.post, Query.comment, find_id.
  run_monad. rewrite Hi. cbn.
  split; [|split].
  - destruct (List.find _ (UserCollection (ctx w))) as [d|]; cbn;
      eexists; eexists; (split; [reflexivity|]); split; try reflexivity.
    cbn. now rewrite bson_load_user.
  - destruct (List.find _ (PostCollection (ctx w))) as [d|]; cbn;
      eexists; eexists; (split; [reflexivity|]); split; try reflexivity.
    cbn. now rewrite bson_load_post.
  - destruct (List.find _ (CommentCollection (ctx w))) as [d|]; cbn;
      eexists; eexists; (split; [reflexivity|]); split; try reflexivity.
    cbn. now rewrite bson_load_comment.
Qed.

Lemma get_by_id_returns_lookup_witness :
  (exists r w', Query.user (toHexString Scenario.ana_id) Scenario.w_commented
                = (Return r, w')
     /\ option_map bson_user r = Some Scenario.ana)
  /\ (exists r w', Query.post (toHexString Scenario.ana_id)
                     Scenario.w_commented = (Return r, w')
     /\ option_map bson_post r = None)
  /\ (exists r w', Query.comment (toHexString Scenario.nice_id)
                     Scenario.w_commented = (Return r, w')
     /\ option_map bson_comment r = Some Scenario.nice).
Proof.
  destruct (get_by_id_returns_lookup (toHexString Scenario.ana_id)
              Scenario.ana_id Scenario.w_commented eq_refl)
    as ((r1 & w1 & H1 & E1 & _) & (r2 & w2 & H2 & E2 & _) & _).
  destruct (get_by_id_returns_lookup (toHexString Scenario.nice_id)
              Scenario.nice_id Scenario.w_commented eq_refl)
    as (_ & _ & (r3 & w3 & H3 & E3 & _)).
  split; [|split].
  - exists r1, w1. split; [exact H1 | exact E1].
  - exists r2, w2. split; [exact H2 | exact E2].
  - exists r3, w3. split; [exact H3 | exact E3].
Defined.

(** ** Creating a post *)

(** X5.  [createPost] fails with the author-does-not-exist error, and
    leaves the store as it was, when [authorId] resolves to no User.
    Otherwise it returns the post under the generated identifier, with the
    input content, the author's identifier and empty comment and like
    arrays; the Post collection is the old one followed by that post, and
    Users and Comments are untouched (the author's row included). *)
Theorem createPost_spec (content authorId : string) (a : Oid) (w : World) :
  ObjectId_parse authorId = Some a ->
  (find_id (@user_id Oid) a (UserCollection (ctx w)) = None ->
   throws_keeping (Mutation.createPost content authorId w) msg_no_author w)
  /\
  (forall x,
     find_id (@user_id Oid) a (UserCollection (ctx w)) = Some x ->
     exists p w',
       Mutation.createPost content authorId w = (Return p, w')
       /\ bson_post p = mkPost (oid_next w) (Some content) a [] []
       /\ PostCollection (ctx w') = PostCollection (ctx w) ++ [bson_post p]
       /\ UserCollection (ctx w') = UserCollection (ctx w)
       /\ CommentCollection (ctx w') = CommentCollection (ctx w)).
Proof.
  intros Ha. split.
  - intros Hu.
    destruct (createPost_no_author content authorId a w Ha Hu)
      as (w' & Hrun & Hctx).
    unfold throws_keeping. now rewrite Hrun.
  - intros x Hx.
    destruct (createPost_ok content authorId a x w Ha Hx)
      as (p & w' & Hrun & Hp & Hctx).
    exists p, w'. rewrite Hctx, Hp. repeat split. exact Hrun.
Qed.

Lemma createPost_spec_witness :
  throws_keeping (Mutation.createPost "hi" (toHexString 9%N) Scenario.w_post)
    msg_no_author Scenario.w_post
  /\ (exists p w',
        Mutation.createPost "hola" (toHexString Scenario.ana_id)
          Scenario.w_post = (Return p, w')
        /\ bson_post p = mkPost 3%N (Some "hola"%string) Scenario.ana_id [] []
        /\ PostCollection (ctx w') = [Scenario.hi [] []; bson_post p]).
Proof.
  pose proof (createPost_spec "hi" (toHexString 9%N) 9%N Scenario.w_post
                eq_refl) as [Hmiss _].
  pose proof (createPost_spec "hola" (toHexString Scenario.ana_id)
                Scenario.ana_id Scenario.w_post eq_refl) as [_ Hok].
  split; [exact (Hmiss eq_refl)|].
  destruct (Hok Scenario.ana eq_refl) as (p & w' & Hrun & Hp & Hps & _).
  exists p, w'. split; [exact Hrun|]. split; [exact Hp|]. exact Hps.
Defined.

(** ** Updates, continued *)

Lemma update_first_none {D : Type} (q : D -> bool) (f : D -> D) (l : list D) :
  List.find q l = None -> update_first q f l = l.
Proof.
  induction l as [|a l IH]; simpl; [reflexivity|].
  destruct (q a); [discriminate|]. intros H. now rewrite IH.
Qed.

(** X6.  An update of an identifier no row has is not an error: [updatePost]
    and [updateComment] return null and leave the store as it was, and so
    does [updateUser] when its email test passes (an empty email, or an email
    no row holds).  The email test of [updateUser] comes before the row
    lookup: with a non-empty email that some row holds it fails with the
    email error even though there is no row to update. *)
Theorem update_missing_returns_null (id : string) (i : Oid) (w : World) :
  ObjectId_parse id = Some i ->
  (find_id (@user_id Oid) i (UserCollection (ctx w)) = None ->
   forall rnd dig name email password,
     (truthy email = false
      \/ List.find (eq_email email) (UserCollection (ctx w)) = None ->
      exists w',
        Mutation.updateUser rnd dig id name email password w
        = (Return None, w') /\ ctx w' = ctx w)
     /\ (forall e,
           truthy email = true ->
           List.find (eq_email email) (UserCollection (ctx w)) = Some e ->
           throws_keeping
             (Mutation.updateUser rnd dig id name email password w)
             msg_email_other_user w))
  /\
  (find_id (@post_id Oid) i (PostCollection (ctx w)) = None ->
   forall content,
     exists w', Mutation.updatePost id content w = (Return None, w')
                /\ ctx w' = ctx w)
  /\
  (find_id (@comment_id Oid) i (CommentCollection (ctx w)) = None ->
   forall text,
     exists w', Mutation.updateComment id text w = (Return None, w')
                /\ ctx w' = ctx w).
Proof.
  intros Hi. unfold find_id. split; [|split].
  - intros Hnone rnd dig name email password. split.
    + intros Hguard. unfold Mutation.updateUser. run_monad.
      unfold genSalt, hash, ret. rewrite Hi. cbn.
      destruct Hguard as [Ht|He].
      * rewrite Ht. cbn. rewrite Hnone. eexists. split; reflexivity.
      * destruct (truthy email); cbn; [rewrite He; cbn|]; rewrite Hnone;
          eexists; split; reflexivity.
    + intros e Ht He.
      destruct (updateUser_email_held_throws rnd dig id name email password
                  i e w Hi Ht He) as (w' & Hrun & Hctx).
      unfold throws_keeping. now rewrite Hrun.
  - intros Hnone content. unfold Mutation.updatePost. run_monad.
    rewrite Hi. cbn. rewrite Hnone. eexists. split; reflexivity.
  - intros Hnone text. unfold Mutation.updateComment. run_monad.
    rewrite Hi. cbn. rewrite Hnone. eexists. split; reflexivity.
Qed.

Lemma update_missing_returns_null_witness :
  (exists w',
     Mutation.updateUser Scenario.demo_random Scenario.demo_digest
       (toHexString 9%N) "Zoe" "zoe@x.com" "pw" Scenario.w_commented
     = (Return None, w') /\ ctx w' = ctx Scenario.w_commented)
  /\ throws_keeping
       (Mutation.updateUser Scenario.demo_random Scenario.demo_digest
          (toHexString 9%N) "Zoe" "ana@x.com" "pw" Scenario.w_commented)
       msg_email_other_user Scenario.w_commented
  /\ (exists w', Mutation.updatePost (toHexString 9%N) None
                   Scenario.w_commented = (Return None, w')
                 /\ ctx w' = ctx Scenario.w_commented)
  /\ (exists w', Mutation.updateComment (toHexString 9%N) (Some "x"%string)
                   Scenario.w_commented = (Return None, w')
                 /\ ctx w' = ctx Scenario.w_commented).
Proof.
  pose proof (update_missing_returns_null (toHexString 9%N) 9%N
                Scenario.w_commented eq_refl) as (Hu & Hp & Hc).
  split; [|split; [|split]].
  - apply (proj1 (Hu eq_refl Scenario.demo_random Scenario.demo_digest
                    "Zoe"%string "zoe@x.com"%string "pw"%string)).
    right. reflexivity.
  - apply (proj2 (Hu eq_refl Scenario.demo_random Scenario.demo_digest
                    "Zoe"%string "ana@x.com"%string "pw"%string)
             Scenario.ana eq_refl eq_refl).
  - apply (Hp eq_refl).
  - apply (Hc eq_refl).
Defined.

Lemma Forall2_same {A : Type} (R : A -> A -> Prop) (l : list A) :
  (forall a, R a a) -> Forall2 R l l.
Proof. intros HR. induction l; constructor; auto. Qed.

Lemma Forall2_update_first {D : Type} (R : D -> D -> Prop) (q : D -> bool)
    (f : D -> D) (l : list D) :
  (forall d, R d d) -> (forall d, q d = true -> R d (f d)) ->
  Forall2 R l (update_first q f l).
Proof.
  intros Hrefl Hf. induction l as [|a l IH]; simpl; [constructor|].
  destruct (q a) eqn:Ea; constructor; auto using Forall2_same.
Qed.

(** X7.  An update overwrites fields of the addressed row only.  After
    [updatePost], row by row the Post collection has the same identifiers,
    authors, comment arrays and like arrays as before, and a content differs
    only on a row with the given identifier, where it is the new content;
    likewise [updateComment] for the text, and [updateUser] for name, email
    and password, which keeps every row's identifier and reference arrays.
    No update touches another collection.  This holds whether the call
    returns or throws. *)
Theorem updates_overwrite_only (id : string) (i : Oid) (w : World) :
  ObjectId_parse id = Some i ->
  (forall content,
     let w' := snd (Mutation.updatePost id content w) in
     Forall2 (content_only i content) (PostCollection (ctx w))
       (PostCollection (ctx w'))
     /\ UserCollection (ctx w') = UserCollection (ctx w)
     /\ CommentCollection (ctx w') = CommentCollection (ctx w))
  /\
  (forall text,
     let w' := snd (Mutation.updateComment id text w) in
     Forall2 (text_only i text) (CommentCollection (ctx w))
       (CommentCollection (ctx w'))
     /\ UserCollection (ctx w') = UserCollection (ctx w)
     /\ PostCollection (ctx w') = PostCollection (ctx w))
  /\
  (forall rnd dig name email password,
     let w' := snd (Mutation.updateUser rnd dig id name email password w) in
     Forall2 (profile_only i name email) (UserCollection (ctx w))
       (UserCollection (ctx w'))
     /\ PostCollection (ctx w') = PostCollection (ctx w)
     /\ CommentCollection (ctx w') = CommentCollection (ctx w)).
Proof.
  intros Hi.
  assert (Hc : forall content d, content_only i content d d).
  { intros content d. unfold content_only. tauto. }
  assert (Ht : forall text d, text_only i text d d).
  { intros text d. unfold text_only. tauto. }
  assert (Hp : forall name email d, profile_only i name email d d).
  { intros name email d. unfold profile_only.
    auto using same_refs_refl. }
  split; [|split].
  - intros content. cbv zeta. unfold Mutation.updatePost. run_monad.
    rewrite Hi. split_run; repeat split; auto using Forall2_same.
    apply Forall2_update_first; [apply Hc|].
    intros d Hd. unfold id_is in Hd. apply N.eqb_eq in Hd.
    unfold content_only. cbn. tauto.
  - intros text. cbv zeta. unfold Mutation.updateComment. run_monad.
    rewrite Hi. split_run; repeat split; auto using Forall2_same.
    apply Forall2_update_first; [apply Ht|].
    intros d Hd. unfold id_is in Hd. apply N.eqb_eq in Hd.
    unfold text_only. cbn. tauto.
  - intros rnd dig name email password. cbv zeta.
    unfold Mutation.updateUser. run_monad. unfold genSalt, hash, ret.
    rewrite Hi. split_run; repeat split; auto using Forall2_same;
      (apply Forall2_update_first; [apply Hp|];
       intros d Hd; unfold id_is in Hd; apply N.eqb_eq in Hd;
       unfold profile_only, same_refs; cbn; tauto).
Qed.

Lemma updates_overwrite_only_witness :
  Forall2 (content_only Scenario.hi_id None)
    (PostCollection (ctx Examples.w_two))
    (PostCollection
       (ctx (snd (Mutation.updatePost (toHexString Scenario.hi_id) None
                    Examples.w_two))))
  /\ Forall2 (profile_only Examples.bea_id "B" "")
       (UserCollection (ctx Examples.w_two))
       (UserCollection
          (ctx (snd (Mutation.updateUser Scenario.demo_random
                       Scenario.demo_digest (toHexString Examples.bea_id)
                       "B" "" "pw" Examples.w_two)))).
Proof.
  split.
  - apply (proj1 (updates_overwrite_only (toHexString Scenario.hi_id)
                    Scenario.hi_id Examples.w_two eq_refl)).
  - apply (proj2 (proj2 (updates_overwrite_only
                    (toHexString Examples.bea_id) Examples.bea_id
                    Examples.w_two eq_refl))).
Defined.

(** ** Deletes do not cascade *)

Lemma deleteUser_ctx (id : string) (i : Oid) (w : World) :
  ObjectId_parse id = Some i ->
  ctx (snd (Mutation.deleteUser id w))
  = mkContext (delete_first (id_is (@user_id Oid) i) (UserCollection (ctx w)))
      (PostCollection (ctx w)) (CommentCollection (ctx w)).
Proof.
  intros Hi. destruct (deleteUser_run id i w Hi) as (w' & Hrun & Hctx).
  now rewrite Hrun.
Qed.

Lemma deletePost_ctx (id : string) (i : Oid) (w : World) :
  ObjectId_parse id = Some i ->
  ctx (snd (Mutation.deletePost id w))
  = mkContext (UserCollection (ctx w))
      (delete_first (id_is (@post_id Oid) i) (PostCollection (ctx w)))
      (CommentCollection (ctx w)).
Proof.
  intros Hi. destruct (deletePost_run id i w Hi) as (w' & Hrun & Hctx).
  now rewrite Hrun.
Qed.

(** X8.  [deleteUser] removes at most the user's row: the Post and Comment
    collections are exactly as before, so posts and comments of the deleted
    user stay in the store.  With distinct identifiers in the User
    collection, their author then resolves to null: [Post.author] and
    [Comment.author] of any post or comment written by the deleted user
    return null without an error. *)
Theorem deleteUser_leaves_dangling (id : string) (i : Oid) (w : World) :
  ObjectId_parse id = Some i ->
  NoDup (map (@user_id Oid) (UserCollection (ctx w))) ->
  let w' := snd (Mutation.deleteUser id w) in
  PostCollection (ctx w') = PostCollection (ctx w)
  /\ CommentCollection (ctx w') = CommentCollection (ctx w)
  /\ (forall parent : PostModel ObjectId,
        oid (post_author parent) = i ->
        Post.author parent w' = (Return None, w'))
  /\ (forall parent : CommentModel ObjectId,
        oid (comment_author parent) = i ->
        Comment.author parent w' = (Return None, w')).
Proof.
  intros Hi Hnd w'. subst w'.
  pose proof (deleteUser_ctx id i w Hi) as Hctx.
  pose proof (find_delete_first_id (@user_id Oid) i _ Hnd) as Hgone.
  unfold find_id in Hgone.
  rewrite Hctx. cbn [PostCollection CommentCollection].
  split; [reflexivity|]. split; [reflexivity|].
  split; intros parent Hp; unfold Post.author, Comment.author, findOne, eq_id;
    rewrite Hctx, Hp; cbn [coll_docs Users UserCollection];
    now rewrite Hgone.
Qed.

Lemma deleteUser_leaves_dangling_witness :
  let w' := snd (Mutation.deleteUser (toHexString Scenario.ana_id)
                   Scenario.w_commented) in
  PostCollection (ctx w') = [Scenario.hi [] [Scenario.nice_id]]
  /\ CommentCollection (ctx w') = [Scenario.nice]
  /\ Post.author (load_post 0 (Scenario.hi [] [Scenario.nice_id])) w'
     = (Return None, w')
  /\ Comment.author (load_comment 0 Scenario.nice) w' = (Return None, w').
Proof.
  assert (Hnd : NoDup (map (@user_id Oid)
                         (UserCollection (ctx Scenario.w_commented)))).
  { repeat constructor. intros []. }
  destruct (deleteUser_leaves_dangling (toHexString Scenario.ana_id)
              Scenario.ana_id Scenario.w_commented eq_refl Hnd)
    as (Hp & Hc & Hpa & Hca).
  cbv zeta. split; [exact Hp|]. split; [exact Hc|]. split.
  - apply Hpa. reflexivity.
  - apply Hca. reflexivity.
Defined.

(** X9.  [deletePost] removes at most the post's row: Users and Comments
    are exactly as before, so the comments of the deleted post stay in the
    store.  With distinct identifiers in the Post collection, [Comment.post]
    of such a comment then returns null, and [deleteComment] on it still
    returns true: it removes the comment, finds no parent to pull from and
    leaves the Post collection as it is. *)
Theorem deletePost_leaves_dangling (id : string) (i : Oid) (w : World) :
  ObjectId_parse id = Some i ->
  NoDup (map (@post_id Oid) (PostCollection (ctx w))) ->
  let w' := snd (Mutation.deletePost id w) in
  UserCollection (ctx w') = UserCollection (ctx w)
  /\ CommentCollection (ctx w') = CommentCollection (ctx w)
  /\ (forall parent : CommentModel ObjectId,
        oid (comment_post parent) = i ->
        Comment.post parent w' = (Return None, w'))
  /\ (forall cid k c,
        ObjectId_parse cid = Some k ->
        find_id (@comment_id Oid) k (CommentCollection (ctx w)) = Some c ->
        comment_post c = i ->
        exists w'',
          Mutation.deleteComment cid w' = (Return true, w'')
          /\ PostCollection (ctx w'') = PostCollection (ctx w')
          /\ S (List.length (CommentCollection (ctx w'')))
             = List.length (CommentCollection (ctx w))).
Proof.
  intros Hi Hnd w'. subst w'.
  pose proof (deletePost_ctx id i w Hi) as Hctx.
  pose proof (find_delete_first_id (@post_id Oid) i _ Hnd) as Hgone.
  unfold find_id in Hgone.
  rewrite Hctx. cbn [UserCollection CommentCollection PostCollection].
  split; [reflexivity|]. split; [reflexivity|]. split.
  - intros parent Hp. unfold Comment.post, findOne, eq_id.
    rewrite Hctx, Hp. cbn [coll_docs Posts PostCollection].
    now rewrite Hgone.
  - intros cid k c Hk Hc Hpost.
    destruct (deleteComment_ok cid k c (snd (Mutation.deletePost id w)) Hk)
      as (w'' & Hrun & Hctx'').
    { rewrite Hctx. exact Hc. }
    exists w''. split; [exact Hrun|]. rewrite Hctx'', Hctx.
    cbn [UserCollection CommentCollection PostCollection].
    rewrite Hpost. split.
    + now apply update_first_none.
    + exact (length_delete_first _ _ _ c Hc).
Qed.

Lemma deletePost_leaves_dangling_witness :
  let w' := snd (Mutation.deletePost (toHexString Scenario.hi_id)
                   Scenario.w_commented) in
  CommentCollection (ctx w') = [Scenario.nice]
  /\ Comment.post (load_comment 0 Scenario.nice) w' = (Return None, w')
  /\ (exists w'',
        Mutation.deleteComment (toHexString Scenario.nice_id) w'
        = (Return true, w'')
        /\ PostCollection (ctx w'') = PostCollection (ctx w')).
Proof.
  assert (Hnd : NoDup (map (@post_id Oid)
                         (PostCollection (ctx Scenario.w_commented)))).
  { repeat constructor. intros []. }
  destruct (deletePost_leaves_dangling (toHexString Scenario.hi_id)
              Scenario.hi_id Scenario.w_commented eq_refl Hnd)
    as (_ & Hc & Hcp & Hdel).
  cbv zeta. split; [exact Hc|]. split.
  - apply Hcp. reflexivity.
  - destruct (Hdel (toHexString Scenario.nice_id) Scenario.nice_id
                Scenario.nice eq_refl eq_refl eq_refl)
      as (w'' & Hrun & Hps & _).
    exists w''. split; [exact Hrun | exact Hps].
Defined.

(** ** The likes of a post *)

Lemma in_ids_spec (xs : list ObjectId) (u : UserModel Oid) :
  in_ids (@user_id Oid) xs u = true <-> In (user_id u) (map oid xs).
Proof.
  unfold in_ids. rewrite existsb_exists, in_map_iff. split.
  - intros (x & Hx & E). apply N.eqb_eq in E. exists x. auto.
  - intros (x & E & Hx). exists x. split; [exact Hx|].
    apply N.eqb_eq. auto.
Qed.

Lemma NoDup_map_filter {A B : Type} (f : A -> B) (q : A -> bool) (l : list A) :
  NoDup (map f l) -> NoDup (map f (filter q l)).
Proof.
  induction l as [|a l IH]; simpl; [auto|].
  intros Hnd. inversion Hnd as [|k ks Hnotin Hnd']; subst.
  destruct (q a); simpl; [|auto]. constructor; [|auto].
  intros Hin. apply Hnotin. apply in_map_iff in Hin.
  destruct Hin as (x & E & Hx). apply filter_In in Hx.
  rewrite <- E. apply in_map. tauto.
Qed.

(** X10.  [Post.likes] returns the rows of the User collection whose
    identifier occurs in the like array of the parent, in store order: a
    user is in the result exactly when the row exists and its identifier is
    in the array.  An identifier no user has contributes nothing, and with
    distinct identifiers in the User collection a user is returned once
    however often the array holds the identifier.  The store is as
    before. *)
Theorem Post_likes_existing_users (parent : PostModel ObjectId) (w : World) :
  exists r w',
    Post.likes parent w = (Return r, w')
    /\ ctx w' = ctx w
    /\ map bson_user r
       = filter (in_ids (@user_id Oid) (post_likes parent))
           (UserCollection (ctx w))
    /\ (forall u, In u (map bson_user r) <->
                  In u (UserCollection (ctx w))
                  /\ In (user_id u) (map oid (post_likes parent)))
    /\ (NoDup (map (@user_id Oid) (UserCollection (ctx w))) ->
        NoDup (map (@user_id Oid) (map bson_user r))).
Proof.
  unfold Post.likes, find. cbn.
  eexists. eexists. split; [reflexivity|]. split; [reflexivity|].
  rewrite map_bson_load_users. split; [reflexivity|]. split.
  - intros u. rewrite filter_In, in_ids_spec. tauto.
  - apply NoDup_map_filter.
Qed.

Lemma Post_likes_existing_users_witness :
  exists r w',
    Post.likes
      (load_post 0 (Scenario.hi [Examples.bea_id; 9%N; Examples.bea_id] []))
      Examples.w_two = (Return r, w')
    /\ map bson_user r = [Examples.bea]
    /\ NoDup (map (@user_id Oid) (map bson_user r)).
Proof.
  destruct (Post_likes_existing_users
              (load_post 0
                 (Scenario.hi [Examples.bea_id; 9%N; Examples.bea_id] []))
              Examples.w_two)
    as (r & w' & Hrun & _ & Hr & _ & Hnd).
  exists r, w'. split; [exact Hrun|]. split; [exact Hr|].
  apply Hnd. repeat constructor; [intros [H|[]]; discriminate | intros []].
Defined.


(** X11.  [addLikeToPost] never looks the user up: on an existing post, any
    well-formed [userId] is pushed onto the like array and the refreshed
    post is returned, also when no User has that identifier, and the User
    collection is untouched.  [Post.likes] of the returned post then shows
    the same users as the like array showed before the call. *)
Theorem addLikeToPost_unknown_user (postId userId : string) (p u : Oid)
    (d : PostModel Oid) (w : World) :
  ObjectId_parse postId = Some p ->
  ObjectId_parse userId = Some u ->
  find_id (@post_id Oid) p (PostCollection (ctx w)) = Some d ->
  find_id (@user_id Oid) u (UserCollection (ctx w)) = None ->
  exists r w',
    Mutation.addLikeToPost postId userId w = (Return (Some r), w')
    /\ map oid (post_likes r) = post_likes d ++ [u]
    /\ UserCollection (ctx w') = UserCollection (ctx w)
    /\ (exists r' w'',
          Post.likes r w' = (Return r', w'')
          /\ forall x, In x (map bson_user r') <->
                       In x (UserCollection (ctx w))
                       /\ In (user_id x) (post_likes d)).
Proof.
  intros Hp Hu Hd Hnone.
  destruct (addLikeToPost_pushes postId userId p u d w Hp Hu Hd)
    as (r & w' & Hrun & Hr & Hctx).
  exists r, w'. split; [exact Hrun|].
  assert (Hlikes : map oid (post_likes r) = post_likes d ++ [u]).
  { change (map oid (post_likes r)) with (post_likes (bson_post r)).
    now rewrite Hr. }
  split; [exact Hlikes|]. split; [now rewrite Hctx|].
  unfold Post.likes, find. cbn. eexists. eexists. split; [reflexivity|].
  rewrite map_bson_load_users, Hctx. cbn [UserCollection].
  intros x. rewrite filter_In, in_ids_spec, Hlikes, in_app_iff.
  split; [|tauto]. intros [Hx [H|[H|[]]]]; [tauto|].
  unfold find_id in Hnone. apply (find_none _ _ Hnone) in Hx.
  unfold id_is in Hx. rewrite <- H, N.eqb_refl in Hx. discriminate.
Qed.

Lemma addLikeToPost_unknown_user_witness :
  exists r w',
    Mutation.addLikeToPost (toHexString Scenario.hi_id) (toHexString 9%N)
      Scenario.w_post = (Return (Some r), w')
    /\ map oid (post_likes r) = [9%N]
    /\ (exists r' w'', Post.likes r w' = (Return r', w'')
                       /\ map bson_user r' = []).
Proof.
  destruct (addLikeToPost_unknown_user (toHexString Scenario.hi_id)
              (toHexString 9%N) Scenario.hi_id 9%N (Scenario.hi [] [])
              Scenario.w_post eq_refl eq_refl eq_refl eq_refl)
    as (r & w' & Hrun & Hl & _ & (r' & w'' & Hrun' & Hr')).
  exists r, w'. split; [exact Hrun|]. split; [exact Hl|].
  exists r', w''. split; [exact Hrun'|].
  destruct (map bson_user r') as [|x l]; [reflexivity|].
  destruct (proj1 (Hr' x) (or_introl eq_refl)) as [_ []].
Defined.

(** ** What the field resolvers show after a create *)


Lemma filter_app_hit {A : Type} (q : A -> bool) (l : list A) (a : A) :
  q a = true -> filter q (l ++ [a]) = filter q l ++ [a].
Proof. intros H. rewrite filter_app. cbn. now rewrite H. Qed.

(** X12.  After a successful [createComment], the field resolvers show the
    new comment where it belongs: [Comment.author] of the returned comment
    is the author's row, [Comment.post] is the parent post with the new
    identifier at the end of its comment array, [Post.comments] of the
    parent is what it was before followed by the new comment, and so is
    [User.comments] of the author. *)
Theorem createComment_then_resolvers (text authorId postId : string)
    (a p : Oid) (x : UserModel Oid) (y : PostModel Oid) (w : World) :
  ObjectId_parse authorId = Some a ->
  find_id (@user_id Oid) a (UserCollection (ctx w)) = Some x ->
  ObjectId_parse postId = Some p ->
  find_id (@post_id Oid) p (PostCollection (ctx w)) = Some y ->
  exists c w',
    Mutation.createComment text authorId postId w = (Return c, w')
    /\ (exists r w'', Comment.author c w' = (Return (Some r), w'')
          /\ bson_user r = x)
    /\ (exists r w'', Comment.post c w' = (Return (Some r), w'')
          /\ bson_post r
             = set_comments (fun l => l ++ [oid (comment_id c)]) y)
    /\ (forall parent : PostModel ObjectId,
          oid (post_id parent) = p ->
          exists r w'', Post.comments parent w' = (Return r, w'')
            /\ map bson_comment r
               = filter (id_is (@comment_post Oid) p)
                   (CommentCollection (ctx w)) ++ [bson_comment c])
    /\ (forall parent : UserModel ObjectId,
          oid (user_id parent) = a ->
          exists r w'', User.comments parent w' = (Return r, w'')
            /\ map bson_comment r
               = filter (id_is (@comment_author Oid) a)
                   (CommentCollection (ctx w)) ++ [bson_comment c]).
Proof.
  intros Ha Hx Hp Hy.
  destruct (createComment_ok text authorId postId a p x y w Ha Hx Hp Hy)
    as (c & w' & Hrun & Hc & Hctx).
  assert (Hca : oid (comment_author c) = a).
  { change (oid (comment_author c)) with (comment_author (bson_comment c)).
    now rewrite Hc. }
  assert (Hcp : oid (comment_post c) = p).
  { change (oid (comment_post c)) with (comment_post (bson_comment c)).
    now rewrite Hc. }
  assert (Hci : oid (comment_id c) = oid_next w).
  { change (oid (comment_id c)) with (comment_id (bson_comment c)).
    now rewrite Hc. }
  exists c, w'. split; [exact Hrun|]. split; [|split; [|split]].
  - unfold Comment.author, findOne, eq_id. rewrite Hctx, Hca.
    cbn [coll_docs Users UserCollection]. unfold find_id in Hx. rewrite Hx.
    eexists. eexists. split; [reflexivity | apply bson_load_user].
  - unfold Comment.post, findOne, eq_id. rewrite Hctx, Hcp.
    cbn [coll_docs Posts PostCollection].
    pose proof (find_set_comments p (fun l => l ++ [oid_next w])
                  (PostCollection (ctx w))) as Hf.
    unfold find_id in Hf, Hy. rewrite Hf, Hy. cbn [option_map].
    eexists. eexists. split; [reflexivity|].
    rewrite bson_load_post. now rewrite Hci.
  - intros parent Hparent. unfold Post.comments, find, eq_id.
    rewrite Hctx, Hparent. cbn [coll_docs Comments CommentCollection].
    eexists. eexists. split; [reflexivity|].
    rewrite map_bson_load_comments, Hc. apply filter_app_hit.
    unfold id_is. cbn. apply N.eqb_refl.
  - intros parent Hparent. unfold User.comments, find, eq_id.
    rewrite Hctx, Hparent. cbn [coll_docs Comments CommentCollection].
    eexists. eexists. split; [reflexivity|].
    rewrite map_bson_load_comments, Hc. apply filter_app_hit.
    unfold id_is. cbn. apply N.eqb_refl.
Qed.

Lemma createComment_then_resolvers_witness :
  exists c w',
    Mutation.createComment "nice" (toHexString Scenario.ana_id)
      (toHexString Scenario.hi_id) Scenario.w_post = (Return c, w')
    /\ (exists r w'', Comment.author c w' = (Return (Some r), w'')
          /\ bson_user r = Scenario.ana)
    /\ (exists r w'', Post.comments (load_post 0 (Scenario.hi [] [])) w'
                      = (Return r, w'')
          /\ map bson_comment r = [bson_comment c]).
Proof.
  destruct (createComment_then_resolvers "nice"
              (toHexString Scenario.ana_id) (toHexString Scenario.hi_id)
              Scenario.ana_id Scenario.hi_id Scenario.ana (Scenario.hi [] [])
              Scenario.w_post eq_refl eq_refl eq_refl eq_refl)
    as (c & w' & Hrun & Hauthor & _ & Hpc & _).
  exists c, w'. split; [exact Hrun|]. split; [exact Hauthor|].
  exact (Hpc (load_post 0 (Scenario.hi [] [])) eq_refl).
Defined.

(** X13.  After a successful [createPost], [Post.author] of the returned
    post is the author's row, and [User.posts] of the author is what it was
    before followed by the new post. *)
Theorem createPost_then_resolvers (content authorId : string) (a : Oid)
    (x : UserModel Oid) (w : World) :
  ObjectId_parse authorId = Some a ->
  find_id (@user_id Oid) a (UserCollection (ctx w)) = Some x ->
  exists p w',
    Mutation.createPost content authorId w = (Return p, w')
    /\ (exists r w'', Post.author p w' = (Return (Some r), w'')
          /\ bson_user r = x)
    /\ (forall parent : UserModel ObjectId,
          oid (user_id parent) = a ->
          exists r w'', User.posts parent w' = (Return r, w'')
            /\ map bson_post r
               = filter (id_is (@post_author Oid) a)
                   (PostCollection (ctx w)) ++ [bson_post p]).
Proof.
  intros Ha Hx.
  destruct (createPost_ok content authorId a x w Ha Hx)
    as (p & w' & Hrun & Hp & Hctx).
  assert (Hpa : oid (post_author p) = a).
  { change (oid (post_author p)) with (post_author (bson_post p)).
    now rewrite Hp. }
  exists p, w'. split; [exact Hrun|]. split.
  - unfold Post.author, findOne, eq_id. rewrite Hctx, Hpa.
    cbn [coll_docs Users UserCollection]. unfold find_id in Hx. rewrite Hx.
    eexists. eexists. split; [reflexivity | apply bson_load_user].
  - intros parent Hparent. unfold User.posts, find, eq_id.
    rewrite Hctx, Hparent. cbn [coll_docs Posts PostCollection].
    eexists. eexists. split; [reflexivity|].
    rewrite map_bson_load_posts, Hp. apply filter_app_hit.
    unfold id_is. cbn. apply N.eqb_refl.
Qed.

Lemma createPost_then_resolvers_witness :
  exists p w',
    Mutation.createPost "hola" (toHexString Scenario.ana_id) Scenario.w_post
    = (Return p, w')
    /\ (exists r w'', Post.author p w' = (Return (Some r), w'')
          /\ bson_user r = Scenario.ana)
    /\ (exists r w'', User.posts (load_user 0 Scenario.ana) w'
                      = (Return r, w'')
          /\ map bson_post r = [Scenario.hi [] []; bson_post p]).
Proof.
  destruct (createPost_then_resolvers "hola" (toHexString Scenario.ana_id)
              Scenario.ana_id Scenario.ana Scenario.w_post eq_refl eq_refl)
    as (p & w' & Hrun & Hauthor & Hup).
  exists p, w'. split; [exact Hrun|]. split; [exact Hauthor|].
  exact (Hup (load_user 0 Scenario.ana) eq_refl).
Defined.

(** ** Invariants of the store under any sequence of calls *)

(** X14.  No mutation writes an [_id] or inserts under an identifier of its
    choice: whatever sequence of mutation calls runs, each returning or
    throwing, the identifiers stay pairwise distinct within every collection
    and below the generator, and the generator never goes back. *)
Theorem identifiers_stay_distinct (rnd : nat -> string)
    (dig : string -> string -> string) (calls : list Call) (w : World) :
  store_ok w ->
  store_ok (fold_left (fun w c => exec rnd dig c w) calls w)
  /\ (oid_next w
      <= oid_next (fold_left (fun w c => exec rnd dig c w) calls w))%N.
Proof.
  revert w. induction calls as [|c calls IH]; intros w Hok; cbn.
  - split; [exact Hok | lia].
  - destruct (IH (exec rnd dig c w) (store_ok_exec rnd dig c w Hok))
      as [Hok' Hle].
    split; [exact Hok'|].
    pose proof (proj1 (exec_steps rnd dig c w)). lia.
Qed.

Lemma identifiers_stay_distinct_witness :
  let w' := fold_left
              (fun w c => exec Scenario.demo_random Scenario.demo_digest c w)
              [CreateUser "Bea" "bea@x.com" "pw";
               CreateComment "nice" (toHexString Scenario.ana_id)
                 (toHexString Scenario.hi_id);
               DeleteUser (toHexString Scenario.ana_id);
               CreatePost "x" (toHexString Scenario.ana_id)]
              Scenario.w_post in
  store_ok w' /\ (3 <= oid_next w')%N.
Proof.
  apply (identifiers_stay_distinct Scenario.demo_random Scenario.demo_digest).
  repeat split; repeat constructor; intros [].
Defined.

(** *** Emails *)

Lemma provided_emails_cons (a : UserModel Oid) (l : list (UserModel Oid)) :
  provided_emails (a :: l)
  = if truthy (user_email a) then user_email a :: provided_emails l
    else provided_emails l.
Proof. reflexivity. Qed.

Lemma In_provided_emails (s : string) (l : list (UserModel Oid)) :
  In s (provided_emails l) <->
  truthy s = true /\ exists d, In d l /\ user_email d = s.
Proof.
  unfold provided_emails. rewrite filter_In, in_map_iff.
  split.
  - intros [(d & Hd1 & Hd2) Ht]. split; [exact Ht|]. exists d. auto.
  - intros [Ht (d & Hd1 & Hd2)]. split; [|exact Ht]. exists d. auto.
Qed.

Lemma email_not_held (e : string) (l : list (UserModel Oid)) :
  List.find (eq_email e) l = None -> ~ In e (provided_emails l).
Proof.
  intros Hnone Hin. apply In_provided_emails in Hin.
  destruct Hin as (_ & d & Hd & He).
  apply (find_none _ _ Hnone) in Hd. unfold eq_email in Hd.
  rewrite He, String.eqb_refl in Hd. discriminate.
Qed.

Lemma NoDup_provided_tail (a : UserModel Oid) (l : list (UserModel Oid)) :
  NoDup (provided_emails (a :: l)) -> NoDup (provided_emails l).
Proof.
  rewrite provided_emails_cons. destruct (truthy (user_email a)); [|auto].
  intros H. now inversion H.
Qed.

Lemma provided_emails_append (l : list (UserModel Oid)) (d : UserModel Oid) :
  NoDup (provided_emails l) ->
  List.find (eq_email (user_email d)) l = None ->
  NoDup (provided_emails (l ++ [d])).
Proof.
  intros Hnd Hnone. unfold provided_emails. rewrite map_app, filter_app.
  cbn. destruct (truthy (user_email d)).
  - apply NoDup_app; [exact Hnd | repeat constructor; intros [] |].
    intros s Hs [<-|[]]. exact (email_not_held _ _ Hnone Hs).
  - now rewrite app_nil_r.
Qed.

Lemma provided_emails_delete (q : UserModel Oid -> bool)
    (l : list (UserModel Oid)) :
  NoDup (provided_emails l) -> NoDup (provided_emails (delete_first q l)).
Proof.
  induction l as [|a l IH]; cbn [delete_first]; [auto|].
  intros Hnd. destruct (q a); [exact (NoDup_provided_tail a l Hnd)|].
  rewrite provided_emails_cons in *.
  destruct (truthy (user_email a)) eqn:Ht; [|auto].
  inversion Hnd as [|s ss Hnotin Hnd']; subst.
  constructor; [|auto]. intros Hin. apply Hnotin.
  apply In_provided_emails in Hin. destruct Hin as (Hs & d & Hd & He).
  apply In_provided_emails. split; [exact Hs|]. exists d.
  split; [now apply In_delete_first in Hd | exact He].
Qed.

Lemma provided_emails_update (q : UserModel Oid -> bool)
    (name email h : string) (l : list (UserModel Oid)) :
  truthy email = false \/ List.find (eq_email email) l = None ->
  NoDup (provided_emails l) ->
  NoDup (provided_emails (update_first q (set_user name email h) l)).
Proof.
  induction l as [|a l IH]; cbn [update_first]; [auto|].
  intros Hguard Hnd.
  assert (Hguard' : truthy email = false
                    \/ List.find (eq_email email) l = None).
  { destruct Hguard as [Ht|He]; [now left|]. right.
    cbn in He. destruct (eq_email email a); [discriminate | exact He]. }
  destruct (q a).
  - rewrite provided_emails_cons. cbn [user_email set_user].
    destruct (truthy email) eqn:Ht; [|exact (NoDup_provided_tail a l Hnd)].
    constructor; [|exact (NoDup_provided_tail a l Hnd)].
    destruct Hguard' as [Hf|He]; [discriminate|].
    exact (email_not_held _ _ He).
  - rewrite provided_emails_cons in *.
    destruct (truthy (user_email a)) eqn:Hta; [|auto].
    inversion Hnd as [|s ss Hnotin Hnd']; subst.
    constructor; [|auto]. intros Hin. apply Hnotin.
    apply In_provided_emails in Hin. destruct Hin as (Hs & d & Hd & He).
    apply In_provided_emails. split; [exact Hs|].
    apply In_update_first in Hd. destruct Hd as [Hd|(d0 & Hd0 & ->)].
    + exists d. auto.
    + exfalso. cbn in He. destruct Hguard as [Hf|Hfind].
      * rewrite He, Hta in Hf. discriminate.
      * cbn in Hfind. unfold eq_email at 1 in Hfind.
        rewrite <- He, String.eqb_refl in Hfind. discriminate.
Qed.

Lemma users_after_createUser_free (rnd : nat -> string)
    (dig : string -> string -> string) (name email password : string)
    (w : World) :
  let us := UserCollection (ctx w) in
  let us' := UserCollection
               (ctx (snd (Mutation.createUser rnd dig name email password w)))
  in
  us' = us
  \/ (List.find (eq_email email) us = None
      /\ exists h, us' = us ++ [mkUser (oid_next w) name h email [] [] []]).
Proof.
  cbv zeta.
  destruct (List.find (eq_email email) (UserCollection (ctx w)))
    as [e|] eqn:He.
  - destruct (createUser_taken rnd dig name email password e w He)
      as (w' & Hrun & Hctx).
    left. now rewrite Hrun, <- Hctx.
  - destruct (createUser_ok rnd dig name email password w He)
      as (u & w' & Hrun & _ & Hctx & _).
    right. split; [reflexivity|]. rewrite Hrun. cbn [snd]. rewrite Hctx.
    eexists. reflexivity.
Qed.

Lemma users_after_updateUser_guard (rnd : nat -> string)
    (dig : string -> string -> string) (id name email password : string)
    (w : World) :
  let us := UserCollection (ctx w) in
  let us' := UserCollection
               (ctx (snd (Mutation.updateUser rnd dig id name email
                            password w)))
  in
  us' = us
  \/ ((truthy email = false \/ List.find (eq_email email) us = None)
      /\ exists q h, us' = update_first q (set_user name email h) us).
Proof.
  cbv zeta.
  destruct (ObjectId_parse id) as [i|] eqn:Hi.
  - destruct (truthy email) eqn:Ht.
    + destruct (List.find (eq_email email) (UserCollection (ctx w)))
        as [e|] eqn:He.
      * destruct (updateUser_email_held_throws rnd dig id name email
                    password i e w Hi Ht He) as (w' & Hrun & Hctx).
        left. now rewrite Hrun, <- Hctx.
      * destruct (users_after_updateUser rnd dig id name email password w)
          as [E|E]; [now left|]. right. split; [now right | exact E].
    + destruct (users_after_updateUser rnd dig id name email password w)
        as [E|E]; [now left|]. right. split; [now left | exact E].
  - left. unfold Mutation.updateUser. run_monad. now rewrite Hi.
Qed.

(** X15.  The provided (non-empty) emails of the User collection stay
    pairwise distinct under every call of every mutation, returning or
    throwing: [createUser] inserts only an email no row holds, [updateUser]
    writes a non-empty email only when no row holds it, and nothing else
    writes an email.  (An empty email is outside the invariant: [updateUser]
    writes it without a test.) *)
Theorem provided_emails_stay_distinct (rnd : nat -> string)
    (dig : string -> string -> string) (c : Call) (w : World) :
  NoDup (provided_emails (UserCollection (ctx w))) ->
  NoDup (provided_emails (UserCollection (ctx (exec rnd dig c w)))).
Proof.
  intros Hnd. destruct (on_users c) eqn:Hc.
  - destruct c; cbn [on_users] in Hc; try discriminate; cbn [exec].
    + destruct (users_after_createUser_free rnd dig name email password w)
        as [E|(Hfree & h & E)]; rewrite E; [exact Hnd|].
      now apply provided_emails_append.
    + destruct (users_after_updateUser_guard rnd dig id name email
                  password w) as [E|(Hguard & q & h & E)];
        rewrite E; [exact Hnd|].
      now apply provided_emails_update.
    + destruct (users_after_deleteUser id w) as [E|[q E]]; rewrite E;
        [exact Hnd|]. now apply provided_emails_delete.
  - now rewrite (users_frame rnd dig c w Hc).
Qed.

Lemma provided_emails_stay_distinct_witness :
  NoDup (provided_emails
           (UserCollection
              (ctx (exec Scenario.demo_random Scenario.demo_digest
                      (UpdateUser (toHexString Examples.bea_id) "Bea"
                         "b@x.com" "pw") Examples.w_two)))).
Proof.
  apply provided_emails_stay_distinct.
  repeat constructor; [intros [H|[]]; discriminate | intros []].
Defined.

(** ** Reading *)

(** X16.  Reading never writes.  The list-all queries and every field
    resolver ([User.posts], [User.comments], [User.likedPosts],
    [Post.author], [Post.comments], [Post.likes], [Comment.author],
    [Comment.post]) always return, and leave the three collections, the
    identifier generator and the random source as they were; the get-by-id
    queries leave them as they were also when they throw. *)
Theorem queries_read_only :
  reads_only Query.users /\ reads_only Query.posts
  /\ reads_only Query.comments
  /\ (forall id, keeps_store (Query.user id))
  /\ (forall id, keeps_store (Query.post id))
  /\ (forall id, keeps_store (Query.comment id))
  /\ (forall parent, reads_only (User.posts parent))
  /\ (forall parent, reads_only (User.comments parent))
  /\ (forall parent, reads_only (User.likedPosts parent))
  /\ (forall parent, reads_only (Post.author parent))
  /\ (forall parent, reads_only (Post.comments parent))
  /\ (forall parent, reads_only (Post.likes parent))
  /\ (forall parent, reads_only (Comment.author parent))
  /\ (forall parent, reads_only (Comment.post parent)).
Proof.
  unfold reads_only, keeps_store.
  unfold Query.users, Query.posts, Query.comments, Query.user, Query.post,
    Query.comment, User.posts, User.comments, User.likedPosts, Post.author,
    Post.comments, Post.likes, Comment.author, Comment.post.
  repeat split; intros; run_monad; split_run;
    repeat split; try reflexivity; eexists; reflexivity.
Qed.

Lemma find_id_In_NoDup {D : Type} (key : D -> Oid) (l : list D) (d : D) :
  NoDup (map key l) -> In d l -> find_id key (key d) l = Some d.
Proof.
  unfold find_id. induction l as [|a l IH]; cbn; [tauto|].
  intros Hnd Hin. inversion Hnd as [|k ks Hnotin Hnd']; subst.
  unfold id_is at 1. destruct (N.eqb_spec (key a) (key d)) as [E|E].
  - destruct Hin as [->|Hin]; [reflexivity|].
    exfalso. apply Hnotin. rewrite E. now apply in_map.
  - destruct Hin as [->|Hin]; [congruence | now apply IH].
Qed.

(** X17.  The identifier string a row shows through its [id] field resolver
    leads back to the row: for a document of a collection with distinct
    identifiers, the get-by-id query with the string that [User.id] (or
    [Post.id], [Comment.id]) gives for it returns that document. *)
Theorem id_then_get_by_id (h : nat) (w : World) :
  (forall d,
     NoDup (map (@user_id Oid) (UserCollection (ctx w))) ->
     In d (UserCollection (ctx w)) -> (user_id d < 2 ^ 96)%N ->
     exists r w', Query.user (User.id (load_user h d)) w
                  = (Return (Some r), w')
                  /\ bson_user r = d)
  /\
  (forall d,
     NoDup (map (@post_id Oid) (PostCollection (ctx w))) ->
     In d (PostCollection (ctx w)) -> (post_id d < 2 ^ 96)%N ->
     exists r w', Query.post (Post.id (load_post h d)) w
                  = (Return (Some r), w')
                  /\ bson_post r = d)
  /\
  (forall d,
     NoDup (map (@comment_id Oid) (CommentCollection (ctx w))) ->
     In d (CommentCollection (ctx w)) -> (comment_id d < 2 ^ 96)%N ->
     exists r w', Query.comment (Comment.id (load_comment h d)) w
                  = (Return (Some r), w')
                  /\ bson_comment r = d).
Proof.
  split; [|split]; intros d Hnd Hin Hb.
  - destruct (Query_user_found (User.id (load_user h d)) (user_id d) d w)
      as (r & w' & Hrun & Hr & _).
    + unfold User.id. cbn. now apply ObjectId_parse_toHexString.
    + now apply find_id_In_NoDup.
    + now exists r, w'.
  - destruct (Query_post_found (Post.id (load_post h d)) (post_id d) d w)
      as (r & w' & Hrun & Hr & _).
    + unfold Post.id. cbn. now apply ObjectId_parse_toHexString.
    + now apply find_id_In_NoDup.
    + now exists r, w'.
  - destruct (Query_comment_found (Comment.id (load_comment h d))
                (comment_id d) d w) as (r & w' & Hrun & Hr & _).
    + unfold Comment.id. cbn. now apply ObjectId_parse_toHexString.
    + now apply find_id_In_NoDup.
    + now exists r, w'.
Qed.

Lemma id_then_get_by_id_witness :
  (exists r w', Query.user (User.id (load_user 7 Examples.bea))
                  Examples.w_two = (Return (Some r), w')
                /\ bson_user r = Examples.bea)
  /\ (exists r w', Query.comment (Comment.id (load_comment 7 Scenario.nice))
                     Examples.w_two = (Return (Some r), w')
                   /\ bson_comment r = Scenario.nice).
Proof.
  destruct (id_then_get_by_id 7 Examples.w_two) as (Hu & _ & Hc).
  split.
  - apply Hu.
    + repeat constructor; [intros [H|[]]; discriminate | intros []].
    + right. left. reflexivity.
    + reflexivity.
  - apply Hc.
    + repeat constructor. intros [].
    + left. reflexivity.
    + reflexivity.
Defined.

(** ** Calls in sequence *)

(** X18.  After a [createUser] that succeeded, every further [createUser]
    with the same email, whatever the name and password, fails with the
    duplicate-email error and leaves the store as the first call left
    it. *)
Theorem createUser_twice_fails (rnd : nat -> string)
    (dig : string -> string -> string)
    (name email password name' password' : string) (w : World) :
  email_free email w ->
  exists u w',
    Mutation.createUser rnd dig name email password w = (Return u, w')
    /\ throws_keeping (Mutation.createUser rnd dig name' email password' w')
         msg_email_registered w'.
Proof.
  intros Hfree. apply find_email_free in Hfree.
  destruct (createUser_ok rnd dig name email password w Hfree)
    as (u & w' & Hrun & _ & Hctx & _).
  exists u, w'. split; [exact Hrun|].
  destruct (find_email_held email (UserCollection (ctx w'))) as [e He].
  { rewrite Hctx. cbn [UserCollection]. eexists. split.
    - apply in_or_app. right. left. reflexivity.
    - reflexivity. }
  destruct (createUser_taken rnd dig name' email password' e w' He)
    as (w'' & Hrun' & Hctx').
  unfold throws_keeping. now rewrite Hrun'.
Qed.

Lemma createUser_twice_fails_witness :
  exists u w',
    Mutation.createUser Scenario.demo_random Scenario.demo_digest
      "Ana" "ana@x.com" "secret" Scenario.w_empty = (Return u, w')
    /\ throws_keeping
         (Mutation.createUser Scenario.demo_random Scenario.demo_digest
            "Anna" "ana@x.com" "other" w')
         msg_email_registered w'.
Proof.
  apply createUser_twice_fails. intros d [].
Defined.

(** X19.  With distinct identifiers in the Comment collection, a
    [deleteComment] that succeeded cannot be repeated: the second call with
    the same identifier fails with the comment-does-not-exist error and
    leaves the store as the first call left it. *)
Theorem deleteComment_twice_fails (id : string) (i : Oid)
    (c : CommentModel Oid) (w : World) :
  ObjectId_parse id = Some i ->
  NoDup (map (@comment_id Oid) (CommentCollection (ctx w))) ->
  find_id (@comment_id Oid) i (CommentCollection (ctx w)) = Some c ->
  exists w',
    Mutation.deleteComment id w = (Return true, w')
    /\ throws_keeping (Mutation.deleteComment id w') msg_no_comment w'.
Proof.
  intros Hi Hnd Hc.
  destruct (deleteComment_ok id i c w Hi Hc) as (w' & Hrun & Hctx).
  exists w'. split; [exact Hrun|].
  destruct (deleteComment_missing id i w' Hi) as (w'' & Hrun' & Hctx').
  { rewrite Hctx. cbn [CommentCollection]. now apply find_delete_first_id. }
  unfold throws_keeping. now rewrite Hrun'.
Qed.

Lemma deleteComment_twice_fails_witness :
  exists w',
    Mutation.deleteComment (toHexString Scenario.nice_id)
      Scenario.w_commented = (Return true, w')
    /\ throws_keeping (Mutation.deleteComment (toHexString Scenario.nice_id) w')
         msg_no_comment w'.
Proof.
  apply (deleteComment_twice_fails (toHexString Scenario.nice_id)
           Scenario.nice_id Scenario.nice Scenario.w_commented eq_refl).
  - repeat constructor. intros [].
  - reflexivity.
Defined.

Lemma delete_first_frees_email (q : UserModel Oid -> bool)
    (l : list (UserModel Oid)) (d : UserModel Oid) :
  NoDup (map (@user_email Oid) l) -> List.find q l = Some d ->
  forall x, In x (delete_first q l) -> user_email x <> user_email d.
Proof.
  induction l as [|a l IH]; cbn; [discriminate|].
  intros Hnd Hfind x Hx. inversion Hnd as [|k ks Hnotin Hnd']; subst.
  destruct (q a).
  - injection Hfind as <-. intros E. apply Hnotin. rewrite <- E.
    now apply in_map.
  - destruct Hx as [<-|Hx]; [|now apply IH].
    intros E. apply Hnotin. rewrite E. apply in_map.
    apply find_some in Hfind. tauto.
Qed.

(** X20.  With pairwise distinct emails in the User collection, deleting a
    user frees the email: after [deleteUser] of an existing user no row
    holds the email of the deleted row, and a [createUser] with that email
    succeeds. *)
Theorem deleteUser_frees_email (rnd : nat -> string)
    (dig : string -> string -> string) (id name password : string)
    (i : Oid) (d : UserModel Oid) (w : World) :
  ObjectId_parse id = Some i ->
  NoDup (map (@user_email Oid) (UserCollection (ctx w))) ->
  find_id (@user_id Oid) i (UserCollection (ctx w)) = Some d ->
  exists w',
    Mutation.deleteUser id w = (Return true, w')
    /\ email_free (user_email d) w'
    /\ exists u w'',
         Mutation.createUser rnd dig name (user_email d) password w'
         = (Return u, w'')
         /\ user_email u = user_email d.
Proof.
  intros Hi Hnd Hd.
  destruct (deleteUser_run id i w Hi) as (w' & Hrun & Hctx).
  rewrite Hd in Hrun. cbn [found] in Hrun.
  assert (Hfree : email_free (user_email d) w').
  { unfold email_free. rewrite Hctx. cbn [UserCollection].
    exact (delete_first_frees_email _ _ d Hnd Hd). }
  exists w'. split; [exact Hrun|]. split; [exact Hfree|].
  apply find_email_free in Hfree.
  destruct (createUser_ok rnd dig name (user_email d) password w' Hfree)
    as (u & w'' & Hrun' & -> & _).
  eexists. exists w''. split; [exact Hrun' | reflexivity].
Qed.

Lemma deleteUser_frees_email_witness :
  exists w',
    Mutation.deleteUser (toHexString Scenario.ana_id) Examples.w_two
    = (Return true, w')
    /\ email_free "ana@x.com" w'
    /\ exists u w'',
         Mutation.createUser Scenario.demo_random Scenario.demo_digest
           "Ana" "ana@x.com" "again" w' = (Return u, w'')
         /\ user_email u = "ana@x.com"%string.
Proof.
  apply (deleteUser_frees_email Scenario.demo_random Scenario.demo_digest
           (toHexString Scenario.ana_id) "Ana" "again" Scenario.ana_id
           Scenario.ana Examples.w_two eq_refl).
  - repeat constructor; [intros [H|[]]; discriminate | intros []].
  - reflexivity.
Defined.

Lemma In_update_first_hit {D : Type} (q : D -> bool) (f : D -> D)
    (l : list D) (d : D) :
  List.find q l = Some d -> In (f d) (update_first q f l).
Proof.
  induction l as [|a l IH]; cbn; [discriminate|].
  destruct (q a).
  - intros [= ->]. now left.
  - intros H. right. now apply IH.
Qed.

(** X21.  After an [addLikeToPost] on an existing post, [User.likedPosts]
    of the user who liked contains the post as the call returned it. *)
Theorem addLikeToPost_then_likedPosts (postId userId : string) (p u : Oid)
    (d : PostModel Oid) (w : World) :
  ObjectId_parse postId = Some p ->
  ObjectId_parse userId = Some u ->
  find_id (@post_id Oid) p (PostCollection (ctx w)) = Some d ->
  exists r w',
    Mutation.addLikeToPost postId userId w = (Return (Some r), w')
    /\ forall parent : UserModel ObjectId,
         oid (user_id parent) = u ->
         exists r' w'', User.likedPosts parent w' = (Return r', w'')
                        /\ In (bson_post r) (map bson_post r').
Proof.
  intros Hp Hu Hd.
  destruct (addLikeToPost_pushes postId userId p u d w Hp Hu Hd)
    as (r & w' & Hrun & Hr & Hctx).
  exists r, w'. split; [exact Hrun|].
  intros parent Hparent. unfold User.likedPosts, find, has_id.
  rewrite Hctx, Hparent. cbn [coll_docs Posts PostCollection].
  eexists. eexists. split; [reflexivity|].
  rewrite map_bson_load_posts, Hr. apply filter_In. split.
  - now apply In_update_first_hit.
  - cbn. rewrite existsb_app. cbn. now rewrite N.eqb_refl, orb_true_r.
Qed.

Lemma addLikeToPost_then_likedPosts_witness :
  exists r w',
    Mutation.addLikeToPost (toHexString Scenario.hi_id)
      (toHexString Scenario.ana_id) Scenario.w_post = (Return (Some r), w')
    /\ exists r' w'', User.likedPosts (load_user 0 Scenario.ana) w'
                      = (Return r', w'')
                      /\ In (bson_post r) (map bson_post r').
Proof.
  destruct (addLikeToPost_then_likedPosts (toHexString Scenario.hi_id)
              (toHexString Scenario.ana_id) Scenario.hi_id Scenario.ana_id
              (Scenario.hi [] []) Scenario.w_post eq_refl eq_refl eq_refl)
    as (r & w' & Hrun & Hliked).
  exists r, w'. split; [exact Hrun|].
  exact (Hliked (load_user 0 Scenario.ana) eq_refl).
Defined.

(** X22.  With distinct identifiers in the collection, a user or post that
    was deleted is gone for the queries: after [deleteUser] (or
    [deletePost]) of an existing row, the get-by-id query with the same
    identifier returns null, and the list-all query returns one row less
    than the collection held. *)
Theorem delete_then_queries (id : string) (i : Oid) (w : World) :
  ObjectId_parse id = Some i ->
  (forall d,
     NoDup (map (@user_id Oid) (UserCollection (ctx w))) ->
     find_id (@user_id Oid) i (UserCollection (ctx w)) = Some d ->
     exists w',
       Mutation.deleteUser id w = (Return true, w')
       /\ (exists w'', Query.user id w' = (Return None, w''))
       /\ (exists r w'', Query.users w' = (Return r, w'')
             /\ S (List.length r) = List.length (UserCollection (ctx w))))
  /\
  (forall d,
     NoDup (map (@post_id Oid) (PostCollection (ctx w))) ->
     find_id (@post_id Oid) i (PostCollection (ctx w)) = Some d ->
     exists w',
       Mutation.deletePost id w = (Return true, w')
       /\ (exists w'', Query.post id w' = (Return None, w''))
       /\ (exists r w'', Query.posts w' = (Return r, w'')
             /\ S (List.length r) = List.length (PostCollection (ctx w)))).
Proof.
  intros Hi. split; intros d Hnd Hd.
  - destruct (deleteUser_run id i w Hi) as (w' & Hrun & Hctx).
    rewrite Hd in Hrun. cbn [found] in Hrun.
    pose proof (find_delete_first_id (@user_id Oid) i _ Hnd) as Hgone.
    unfold find_id in Hgone, Hd.
    exists w'. split; [exact Hrun|]. split.
    + unfold Query.user. run_monad. rewrite Hi. cbn. rewrite Hctx.
      cbn [UserCollection]. rewrite Hgone. eexists. reflexivity.
    + unfold Query.users, find. cbn. rewrite filter_all.
      eexists. eexists. split; [reflexivity|].
      rewrite <- (length_map bson_user), map_bson_load_users, Hctx.
      cbn [UserCollection]. exact (length_delete_first _ _ _ d Hd).
  - destruct (deletePost_run id i w Hi) as (w' & Hrun & Hctx).
    rewrite Hd in Hrun. cbn [found] in Hrun.
    pose proof (find_delete_first_id (@post_id Oid) i _ Hnd) as Hgone.
    unfold find_id in Hgone, Hd.
    exists w'. split; [exact Hrun|]. split.
    + unfold Query.post. run_monad. rewrite Hi. cbn. rewrite Hctx.
      cbn [PostCollection]. rewrite Hgone. eexists. reflexivity.
    + unfold Query.posts, find. cbn. rewrite filter_all.
      eexists. eexists. split; [reflexivity|].
      rewrite <- (length_map bson_post), map_bson_load_posts, Hctx.
      cbn [PostCollection]. exact (length_delete_first _ _ _ d Hd).
Qed.

Lemma delete_then_queries_witness :
  (exists w',
     Mutation.deleteUser (toHexString Examples.bea_id) Examples.w_two
     = (Return true, w')
     /\ (exists w'', Query.user (toHexString Examples.bea_id) w'
                     = (Return None, w''))
     /\ (exists r w'', Query.users w' = (Return r, w'')
           /\ S (List.length r) = 2))
  /\
  (exists w',
     Mutation.deletePost (toHexString Scenario.hi_id) Examples.w_two
     = (Return true, w')
     /\ (exists w'', Query.post (toHexString Scenario.hi_id) w'
                     = (Return None, w''))
     /\ (exists r w'', Query.posts w' = (Return r, w'')
           /\ S (List.length r) = 1)).
Proof.
  split.
  - apply (proj1 (delete_then_queries (toHexString Examples.bea_id)
                    Examples.bea_id Examples.w_two eq_refl) Examples.bea).
    + repeat constructor; [intros [H|[]]; discriminate | intros []].
    + reflexivity.
  - apply (proj2 (delete_then_queries (toHexString Scenario.hi_id)
                    Scenario.hi_id Examples.w_two eq_refl)
             (Scenario.hi [Examples.bea_id; 9%N] [Scenario.nice_id])).
    + repeat constructor. intros [].
    + reflexivity.
Defined.
